(** * Linear-programming samples: configuration loader and the two PuLP examples

    A shallow embedding of [src/constants.py] and [src/linear_programming.py].

    - [Constants] follows [constants.py] statement by statement: the body of
      [class Config] runs at import time, reads [config.json] from the parent
      of the working directory and binds the class attributes; [class
      Environment] binds two integers afterwards.
    - [LP] follows [linear_programming.py]: the two example functions build a
      model, export it, solve it through the solver capability and print a
      report.  Numbers are rationals; Python's [/] on two integers is
      the quotient rounded to the nearest double ([truediv]), so the
      coefficients of line 46 are the doubles the source computes. *)

From Stdlib Require Import ZArith QArith String Ascii List Lia Lqa.
From stdpp Require Import gmap strings sorting pretty.

Local Open Scope string_scope.

(* ===================================================================== *)
(** ** constants.py *)
(* ===================================================================== *)

Module Constants.

(** What [json.load] returns: Python's image of a JSON document.  A JSON
    object becomes a [dict] with string keys. *)
#[warnings="-register-all"]
Inductive JSON : Type :=
| JNull
| JBool (b : bool)
| JInt (z : Z)
| JFloat (q : Q)
| JStr (s : string)
| JArr (l : list JSON)
| JObj (m : gmap string JSON).

(** A file on disk, seen through [json.load]: either its text is a JSON
    document, or decoding it raises. *)
Inductive File : Type :=
| NotJson (raw : string)
| JsonDoc (j : JSON).

(** The part of the process environment that [constants.py] reads. *)
Record World : Type := mkWorld {
  cwd : string;                 (* os.getcwd() *)
  fs  : gmap string File        (* path -> file *)
}.

(** The exceptions the module body can raise. *)
Inductive PyExc : Type :=
| NameError (name : string)
| FileNotFoundError (path : string)
| JSONDecodeError
| KeyError (key : string)
| TypeError.

(** [v[k]] for a string key [k]: only a [dict] can be indexed by a string. *)
Definition subscript (v : JSON) (k : string) : PyExc + JSON :=
  match v with
  | JObj m =>
      match m !! k with
      | Some x => inr x
      | None => inl (KeyError k)
      end
  | _ => inl TypeError
  end.

(** [os.path.dirname] (posixpath):
<<
    i = p.rfind('/') + 1
    head = p[:i]
    if head and head != '/' * len(head):
        head = head.rstrip('/')
    return head
>> *)
Definition is_sep (c : ascii) : bool := Ascii.eqb c "/"%char.

Fixpoint drop_while (f : ascii -> bool) (l : list ascii) : list ascii :=
  match l with
  | nil => nil
  | c :: l' => if f c then drop_while f l' else l
  end.

Definition dirname (p : string) : string :=
  let rhead := drop_while (fun c => negb (is_sep c)) (rev (list_ascii_of_string p)) in
  if forallb is_sep rhead
  then string_of_list_ascii (rev rhead)
  else string_of_list_ascii (rev (drop_while is_sep rhead)).

(** [open(path, 'r')]. *)
Definition open (w : World) (path : string) : PyExc + File :=
  match fs w !! path with
  | None => inl (FileNotFoundError path)
  | Some f => inr f
  end.

(** [json.load(cf)]. *)
Definition json_load (cf : File) : PyExc + JSON :=
  match cf with
  | NotJson _ => inl JSONDecodeError
  | JsonDoc j => inr j
  end.

(** The attributes of [class Config] once its body has run to the end. *)
Record ConfigClass : Type := mkConfig {
  PATH_PARENT : string;
  config_file : string;
  config : JSON;
  APP_NAME : JSON;
  VERSION : JSON;
  ENV : JSON;
  PATH_SRC : JSON;
  PATH_DATA : JSON;
  PATH_LOG : JSON;
  PATH_TEST : JSON
}.

(** The attributes of [class Environment]. *)
Record EnvironmentClass : Type := mkEnvironment {
  UAT : Z;
  PROD : Z
}.

(** What a module-level name can be bound to. *)
Inductive PyObj : Type :=
| PyModule (name : string)
| PyConfig (c : ConfigClass)
| PyEnvironment (e : EnvironmentClass).

(** Error monad of the module body: an exception ends the run. *)
#[global] Instance exc_ret : MRet (sum PyExc) := fun _ a => inr a.
#[global] Instance exc_bind : MBind (sum PyExc) := fun _ _ k m =>
  match m with
  | inl e => inl e
  | inr a => k a
  end.

(** Reading a global name. *)
Definition global (g : gmap string PyObj) (name : string) : PyExc + PyObj :=
  match g !! name with
  | Some o => inr o
  | None => inl (NameError name)
  end.

(** ['{pp}/config.json'.format(pp=PATH_PARENT)]. *)
Definition config_path (w : World) : string :=
  dirname (cwd w) +:+ "/config.json".

(** The body of [class Config], run in the module name space [g]. *)
Definition class_Config (g : gmap string PyObj) (w : World) : PyExc + ConfigClass :=
  _ ← global g "os";
  let path_parent := dirname (cwd w) in
  let file := config_path w in
  cf ← open w file;
  _ ← global g "json";
  cfg ← json_load cf;
  app_name ← subscript cfg "APP_NAME";
  version ← subscript cfg "VERSION";
  env ← subscript cfg "ENV";
  paths1 ← subscript cfg "PATHS";
  path_src ← subscript paths1 "SOURCE_CODE";
  paths2 ← subscript cfg "PATHS";
  path_data ← subscript paths2 "DATA";
  paths3 ← subscript cfg "PATHS";
  path_log ← subscript paths3 "LOG";
  paths4 ← subscript cfg "PATHS";
  path_test ← subscript paths4 "TEST";
  mret (mkConfig path_parent file cfg app_name version env
                 path_src path_data path_log path_test).

(** The body of [class Environment]. *)
Definition class_Environment : EnvironmentClass :=
  {| UAT := 1; PROD := 9 |}.

(** The name space in which the body of [class Config] runs: the two imports
    have been executed, nothing else. *)
Definition globals_at_Config : gmap string PyObj :=
  <["json" := PyModule "json"]> (<["os" := PyModule "os"]> ∅).

(** Importing [constants]: the statements of the module from top to bottom.
    An exception in a class body aborts the import, and the module with all
    its names is discarded. *)
Definition import_constants (w : World) : PyExc + gmap string PyObj :=
  let g := globals_at_Config in
  c ← class_Config g w;
  let g := <["Config" := PyConfig c]> g in
  let g := <["Environment" := PyEnvironment class_Environment]> g in
  mret g.

(** The four top-level keys and the four keys under [PATHS], as a decidable
    check on the decoded document. *)
Definition has_key (v : JSON) (k : string) : bool :=
  match v with
  | JObj m => bool_decide (is_Some (m !! k))
  | _ => false
  end.

Definition top_keys : list string := ["APP_NAME"; "VERSION"; "ENV"; "PATHS"].
Definition path_keys : list string := ["SOURCE_CODE"; "DATA"; "LOG"; "TEST"].

Definition paths_of (v : JSON) : JSON :=
  match subscript v "PATHS" with
  | inr p => p
  | inl _ => JNull
  end.

Definition well_formed (v : JSON) : bool :=
  forallb (has_key v) top_keys && forallb (has_key (paths_of v)) path_keys.

(** The module name space after a successful import. *)
Definition module_of (c : ConfigClass) : gmap string PyObj :=
  <["Environment" := PyEnvironment class_Environment]>
    (<["Config" := PyConfig c]> globals_at_Config).

(** The class body on a decoded document: the seven subscripts in order. *)
Definition read_keys (w : World) (cfg : JSON) : PyExc + ConfigClass :=
  app_name ← subscript cfg "APP_NAME";
  version ← subscript cfg "VERSION";
  env ← subscript cfg "ENV";
  paths1 ← subscript cfg "PATHS";
  path_src ← subscript paths1 "SOURCE_CODE";
  paths2 ← subscript cfg "PATHS";
  path_data ← subscript paths2 "DATA";
  paths3 ← subscript cfg "PATHS";
  path_log ← subscript paths3 "LOG";
  paths4 ← subscript cfg "PATHS";
  path_test ← subscript paths4 "TEST";
  mret (mkConfig (dirname (cwd w)) (config_path w) cfg app_name version env
                 path_src path_data path_log path_test).


(** A sample environment: the process runs in [/srv/app/src] and
    [/srv/app/config.json] holds the given document. *)
Definition sample_paths : JSON :=
  JObj (<["SOURCE_CODE" := JStr "src"]> (<["DATA" := JStr "data"]>
       (<["LOG" := JStr "log"]> (<["TEST" := JStr "test"]> ∅)))).

Definition sample_doc : gmap string JSON :=
  <["APP_NAME" := JStr "lp-samples"]> (<["VERSION" := JStr "1.0"]>
  (<["ENV" := JInt 1]> (<["PATHS" := sample_paths]> ∅))).

Definition sample_world (doc : JSON) : World :=
  mkWorld "/srv/app/src" (<["/srv/app/config.json" := JsonDoc doc]> ∅).

Definition sample_config : ConfigClass :=
  mkConfig "/srv/app" "/srv/app/config.json" (JObj sample_doc)
           (JStr "lp-samples") (JStr "1.0") (JInt 1)
           (JStr "src") (JStr "data") (JStr "log") (JStr "test").

Definition sample_world_env5 : World :=
  sample_world (JObj (<["ENV" := JInt 5]> sample_doc)).

(** *** Paths and shapes, for the properties of the loader *)

(** [leaf] holds no separator; [parent] is not empty and does not end in
    one. *)
Definition no_sep (leaf : string) : bool :=
  forallb (fun c => negb (is_sep c)) (list_ascii_of_string leaf).

Definition ends_without_sep (parent : string) : bool :=
  match rev (list_ascii_of_string parent) with
  | c :: _ => negb (is_sep c)
  | nil => false
  end.

Definition is_object (v : JSON) : bool :=
  match v with
  | JObj _ => true
  | _ => false
  end.

(** The seven constants of two [Config] classes agree. *)
Definition same_constants (c c' : ConfigClass) : Prop :=
  APP_NAME c = APP_NAME c' /\ VERSION c = VERSION c' /\ ENV c = ENV c' /\
  PATH_SRC c = PATH_SRC c' /\ PATH_DATA c = PATH_DATA c' /\
  PATH_LOG c = PATH_LOG c' /\ PATH_TEST c = PATH_TEST c'.

(** Two imports end alike: in the same exception, or both bind [Config] with
    the same seven constants. *)
Definition same_outcome (r r' : PyExc + gmap string PyObj) : Prop :=
  match r, r' with
  | inl e, inl e' => e = e'
  | inr g, inr g' =>
      exists c c', g = module_of c /\ g' = module_of c' /\ same_constants c c'
  | _, _ => False
  end.

(** The world [w] with the file [f] put at [path]. *)
Definition with_file (w : World) (path : string) (f : File) : World :=
  mkWorld (cwd w) (<[path := f]> (fs w)).

(** The sample document with DATA taken out of PATHS. *)
Definition sample_paths_no_data : gmap string JSON :=
  <["SOURCE_CODE" := JStr "src"]> (<["LOG" := JStr "log"]> (<["TEST" := JStr "test"]> ∅)).

Definition sample_doc_no_data : gmap string JSON :=
  <["PATHS" := JObj sample_paths_no_data]> sample_doc.

End Constants.

(* ===================================================================== *)
(** ** linear_programming.py *)
(* ===================================================================== *)

Module LP.

Local Open Scope Q_scope.

(** Rationals as map keys and record fields: equality of representations. *)
#[global] Instance Q_eq_dec : EqDecision Q.
Proof. solve_decision. Defined.

#[global] Instance Q_countable : Countable Q :=
  inj_countable' (fun q => (Qnum q, Qden q)) (fun p => Qmake (fst p) (snd p))
                 (fun q => match q with Qmake _ _ => eq_refl end).

(** *** Data model *)

Inductive LpCategory : Type := LpContinuous | LpInteger.
Inductive LpSense : Type := LpMinimize | LpMaximize.
Inductive Relation : Type := LE | GE | EQ.

(** Solver outcomes, with PuLP's [LpStatus] table of their names. *)
Inductive LpStatusCode : Type :=
| LpStatusNotSolved
| LpStatusOptimal
| LpStatusInfeasible
| LpStatusUnbounded
| LpStatusUndefined.

Definition LpStatus (s : LpStatusCode) : string :=
  match s with
  | LpStatusNotSolved => "Not Solved"
  | LpStatusOptimal => "Optimal"
  | LpStatusInfeasible => "Infeasible"
  | LpStatusUnbounded => "Unbounded"
  | LpStatusUndefined => "Undefined"
  end%string.

(** The error taxonomy of the model-building layer. *)
Inductive LpError : Type :=
| InvalidBoundsError
| DuplicateNameError
| UnknownVariableError
| MissingObjectiveError.

#[global] Instance LpCategory_eq_dec : EqDecision LpCategory.
Proof. solve_decision. Defined.

#[global] Instance LpCategory_countable : Countable LpCategory :=
  inj_countable' (fun c => match c with LpContinuous => false | LpInteger => true end)
                 (fun b : bool => if b then LpInteger else LpContinuous)
                 (fun c => match c with LpContinuous => eq_refl | LpInteger => eq_refl end).

(** A variable as it is declared.  Its resolved value is not a field here: it
    lives in the owning problem's [solution], see [varValue]. *)
Record LpVariable : Type := mkVar {
  name : string;
  lowBound : option Q;
  upBound : option Q;
  cat : LpCategory
}.

#[global] Instance LpVariable_eq_dec : EqDecision LpVariable.
Proof. solve_decision. Defined.

#[global] Instance LpVariable_countable : Countable LpVariable :=
  inj_countable'
    (fun v => (name v, lowBound v, upBound v, cat v))
    (fun t => match t with (n, l, u, c) => mkVar n l u c end)
    (fun v => match v with mkVar _ _ _ _ => eq_refl end).

(** A weighted sum of variables plus a constant. *)
Record LpAffineExpression : Type := mkExpr {
  terms : gmap LpVariable Q;
  constant : Q
}.

Record LpConstraint : Type := mkConstraint {
  expression : LpAffineExpression;
  relation : Relation;
  rhs : Q;
  cname : string
}.

Record LpProblem : Type := mkProblem {
  pname : string;
  sense : LpSense;
  objective : option LpAffineExpression;
  objective_name : string;
  constraints : list LpConstraint;
  status : LpStatusCode;
  solution : gmap LpVariable Q
}.

(** *** Expressions *)

(** The expression with no term and constant zero. *)
Definition empty_expr : LpAffineExpression := mkExpr ∅ 0.

(** Modelled from the spec: [add(Variable, coefficient)] of the solver
    library, which is not part of the sources.  It returns a new expression
    whose term map sums the coefficients of a repeated variable. *)
Definition add_term (e : LpAffineExpression) (v : LpVariable) (c : Q) : LpAffineExpression :=
  match terms e !! v with
  | Some c0 => mkExpr (<[v := c0 + c]> (terms e)) (constant e)
  | None => mkExpr (<[v := c]> (terms e)) (constant e)
  end.

(** Modelled from the spec: [add(LinearExpression)] of the solver library,
    which is not part of the sources: the [+] of two expressions.  The term
    maps are merged, the coefficients of a variable present in both are
    summed, and so are the constants. *)
Definition add (e1 e2 : LpAffineExpression) : LpAffineExpression :=
  mkExpr (union_with (fun c1 c2 => Some (c1 + c2)) (terms e1) (terms e2))
         (constant e1 + constant e2).

(** The coefficient of [v] in [e], zero when [e] has no term for [v]. *)
Definition coefficient (e : LpAffineExpression) (v : LpVariable) : Q :=
  default 0 (terms e !! v).

(** Modelled from the spec: [c * x] and [x * c] of the solver library for a
    number [c] and a variable [x], the expression with the single term
    [x] weighted by [c]. *)
Definition times (c : Q) (x : LpVariable) : LpAffineExpression :=
  add_term empty_expr x c.

(** Modelled from the spec: [e <= b], [e >= b] and [e == b] of the solver
    library for a number [b]: a constraint with expression, relation and
    right-hand side, not yet named. *)
Definition constrain (e : LpAffineExpression) (r : Relation) (b : Q) : LpConstraint :=
  mkConstraint e r b "".

(** Modelled from the spec: [value(e)] of the solver library, the expression
    at the resolved values [a]; [None] as soon as a variable of [e] has no
    value. *)
Definition value (a : gmap LpVariable Q) (e : LpAffineExpression) : option Q :=
  foldr (fun t acc =>
           s ← acc;
           q ← a !! t.1;
           Some (s + q * t.2))
        (Some (constant e)) (map_to_list (terms e)).

(** *** Problems *)

(** Modelled from the spec: [pulp.LpProblem(name=..., sense=...)] of the
    solver library; a model is created empty and unsolved. *)
Definition new_problem (n : string) (s : LpSense) : LpProblem :=
  mkProblem n s None "" [] LpStatusNotSolved ∅.

(** Modelled from the spec: [prob += e, n] of the solver library for an
    expression [e], the spec's [setObjective]: [e] becomes the objective. *)
Definition iadd_objective (p : LpProblem) (e : LpAffineExpression) (n : string) : LpProblem :=
  mkProblem (pname p) (sense p) (Some e) n (constraints p) (status p) (solution p).

(** Modelled from the spec: [prob += c, n] of the solver library for a
    constraint [c], the spec's [addConstraint]: [c] is appended to the ordered
    sequence of constraints under the name [n]. *)
Definition iadd_constraint (p : LpProblem) (c : LpConstraint) (n : string) : LpProblem :=
  mkProblem (pname p) (sense p) (objective p) (objective_name p)
            ((constraints p ++ [mkConstraint (expression c) (relation c) (rhs c) n])%list)
            (status p) (solution p).

(** Order of variables by name. *)
Definition name_le (v1 v2 : LpVariable) : Prop :=
  String.leb (name v1) (name v2) = true.

#[global] Instance name_le_dec : RelDecision name_le.
Proof. intros v1 v2. unfold name_le. apply _. Defined.

(** The variables of a problem are derived: those of its objective and of
    its constraints. *)
Definition expr_vars (e : LpAffineExpression) : gset LpVariable := dom (terms e).

Definition var_set (p : LpProblem) : gset LpVariable :=
  from_option expr_vars ∅ (objective p)
  ∪ ⋃ (map (fun c => expr_vars (expression c)) (constraints p)).

(** Modelled from the spec: [prob.variables()] of the solver library, the
    derived variable set, listed by name. *)
Definition variables (p : LpProblem) : list LpVariable :=
  merge_sort name_le (elements (var_set p)).

(** Modelled from the spec: [v.varValue], the resolved value of a variable
    of [p], set only by the solve step. *)
Definition varValue (p : LpProblem) (v : LpVariable) : option Q := solution p !! v.

(** [value(prob.objective)] on a problem. *)
Definition objective_value (p : LpProblem) : option Q :=
  e ← objective p; value (solution p) e.

(** *** Effects *)

(** What a run does to the outside, in the order it happens. *)
Inductive Event : Type :=
| EvWriteLP (path : string) (p : LpProblem)   (* the text of [p] written to [path] *)
| EvSolve (p : LpProblem)                     (* the external solver invoked on [p] *)
| EvPrint (line : string).                    (* one line on standard output *)

(** Computations that extend the trace and may raise. *)
Definition M (A : Type) : Type := list Event -> (LpError + A) * list Event.

#[global] Instance M_ret : MRet M := fun _ a t => (inr a, t).
#[global] Instance M_bind : MBind M := fun _ _ k m t =>
  match m t with
  | (inl e, t') => (inl e, t')
  | (inr a, t') => k a t'
  end.

Definition raise {A : Type} (e : LpError) : M A := fun t => (inl e, t).
Definition emit (ev : Event) : M unit := fun t => (inr tt, (t ++ [ev])%list).
Definition print (line : string) : M unit := emit (EvPrint line).

Fixpoint for_each {A : Type} (l : list A) (body : A -> M unit) : M unit :=
  match l with
  | [] => mret tt
  | x :: l' => _ ← body x; for_each l' body
  end.

(** Modelled from the spec: the variable constructor of the solver library,
    which is not part of the sources.  It fails with [InvalidBoundsError] if
    lowerBound > upperBound when both are specified, and has no side
    effects. *)
Definition new_variable (n : string) (lb ub : option Q) (c : LpCategory) : M LpVariable :=
  match lb, ub with
  | Some l, Some u =>
      if Qlt_le_dec u l then raise InvalidBoundsError else mret (mkVar n lb ub c)
  | _, _ => mret (mkVar n lb ub c)
  end.

(** Modelled from the spec: [exportProblem(path)], the library's [writeLP],
    which is not part of the sources.  It serializes the model to a file; pure
    formatting, no solving.  The problem is handed back as it is afterwards. *)
Definition writeLP (p : LpProblem) (path : string) : M LpProblem :=
  _ ← emit (EvWriteLP path p); mret p.

(** The external solver capability: given objective, constraints and variable
    domains it returns a status and a value per variable. *)
Record SolveResult : Type := mkResult {
  res_status : LpStatusCode;
  res_values : gmap LpVariable Q
}.

(** The problem once the solver's answer [r] is stored in it. *)
Definition with_result (p : LpProblem) (r : SolveResult) : LpProblem :=
  mkProblem (pname p) (sense p) (objective p) (objective_name p)
            (constraints p) (res_status r) (res_values r).

(** Python's [n / d] on two positive integers: the quotient rounded to the
    nearest binary64 number, ties to even.  The quotient is scaled by a power
    of two into [[2^52, 2^53)], rounded to an integer and scaled back; a
    double has 53 significant bits.  Quotients outside the normal range of
    binary64 do not occur here. *)
Definition round_half_even (num den : Z) : Z :=
  let m := (num / den)%Z in
  let r := (num mod den)%Z in
  if (2 * r <? den)%Z then m
  else if (den <? 2 * r)%Z then (m + 1)%Z
  else if Z.even m then m else (m + 1)%Z.

Definition truediv (n d : positive) : Q :=
  let s0 := (53 + Z.log2 (Z.pos d) - Z.log2 (Z.pos n))%Z in
  let s := if (2 ^ 53 <=? (Z.pos n * 2 ^ s0) / Z.pos d)%Z then (s0 - 1)%Z else s0 in
  if (0 <=? s)%Z
  then Qmake (round_half_even (Z.pos n * 2 ^ s) (Z.pos d)) (Z.to_pos (2 ^ s))
  else inject_Z (round_half_even (Z.pos n) (Z.pos d * 2 ^ (- s)) * 2 ^ (- s)).

Section Run.

Variable solver : LpProblem -> SolveResult.

(** Python's rendering of a number or of [None] by [str.format]. *)
Variable str : option Q -> string.

(** Modelled from the spec: [solve()] of the solver library, which is not part
    of the sources.  A missing objective is a malformed model and raises
    before the solver is called; otherwise the solver's status and values are
    stored in the problem, whatever the status. *)
Definition solve (p : LpProblem) : M LpProblem :=
  match objective p with
  | None => raise MissingObjectiveError
  | Some _ =>
      _ ← emit (EvSolve p);
      mret (with_result p (solver p))
  end.

(** [factory_product_problem], lines 36 to 69. *)
Definition factory_product_problem : M unit :=
  let prob := new_problem "Factory Products Profit" LpMaximize in
  x ← new_variable "screws_tons_per_day" (Some 0) (Some 400) LpInteger;
  y ← new_variable "nails_tons_per_day" (Some 0) (Some 300) LpInteger;
  let prob := iadd_objective prob (add (times 20 x) (times 30 y))
                "Tons of each product; profit to be maximised per day" in
  let prob := iadd_constraint prob
                (constrain (add (times (truediv 1 60) x) (times (truediv 1 50) y)) LE 8)
                "Working Hour constraint" in
  prob ← writeLP prob "MaximisedProfit.lp";
  prob ← solve prob;
  _ ← print "";
  _ ← print ("Problem Name >> " +:+ pname prob);
  _ ← print ("Status >> " +:+ LpStatus (status prob));
  _ ← for_each (variables prob)
        (fun v => print (name v +:+ " = " +:+ str (varValue prob v)));
  print ("Ton for each product per day to maximise profit = "
         +:+ str (objective_value prob)).

(** [advertising_campaign_problem], lines 99 to 132. *)
Definition advertising_campaign_problem : M unit :=
  let prob := new_problem "Advertisement Campaign" LpMaximize in
  x ← new_variable "run_no_of_print_media" (Some 0) (Some 40) LpInteger;
  y ← new_variable "run_no_of_tv_media" (Some 0) (Some 15) LpInteger;
  let prob := iadd_objective prob (add (times 1000000 x) (times 2000000 y))
                "Number of maximum people reach with both media" in
  let prob := iadd_constraint prob
                (constrain (add (times 20000 x) (times 50000 y)) LE 1000000)
                "Cost constraint" in
  prob ← writeLP prob "AdvertisementCampaign.lp";
  prob ← solve prob;
  _ ← print "";
  _ ← print ("Problem Name >> " +:+ pname prob);
  _ ← print ("Status >> " +:+ LpStatus (status prob));
  _ ← for_each (variables prob)
        (fun v => print (name v +:+ " = " +:+ str (varValue prob v)));
  print ("Maximum people reach by using both media = "
         +:+ str (objective_value prob)).

(** [main], lines 137 to 142. *)
Definition main : M unit :=
  _ ← factory_product_problem;
  advertising_campaign_problem.

(** The report that ends both functions (lines 54 to 69 and 117 to 132),
    with the label of its last line. *)
Definition report (prob : LpProblem) (label : string) : M unit :=
  _ ← print "";
  _ ← print ("Problem Name >> " +:+ pname prob);
  _ ← print ("Status >> " +:+ LpStatus (status prob));
  _ ← for_each (variables prob)
        (fun v => print (name v +:+ " = " +:+ str (varValue prob v)));
  print (label +:+ " = " +:+ str (objective_value prob)).

End Run.

(** *** The two models as data *)

Definition screws_tons_per_day : LpVariable :=
  mkVar "screws_tons_per_day" (Some 0) (Some 400) LpInteger.
Definition nails_tons_per_day : LpVariable :=
  mkVar "nails_tons_per_day" (Some 0) (Some 300) LpInteger.

Definition factory_objective : LpAffineExpression :=
  add (times 20 screws_tons_per_day) (times 30 nails_tons_per_day).
Definition factory_hours : LpAffineExpression :=
  add (times (truediv 1 60) screws_tons_per_day) (times (truediv 1 50) nails_tons_per_day).

Definition factory_lp : LpProblem :=
  iadd_constraint
    (iadd_objective (new_problem "Factory Products Profit" LpMaximize)
       factory_objective "Tons of each product; profit to be maximised per day")
    (constrain factory_hours LE 8) "Working Hour constraint".

Definition run_no_of_print_media : LpVariable :=
  mkVar "run_no_of_print_media" (Some 0) (Some 40) LpInteger.
Definition run_no_of_tv_media : LpVariable :=
  mkVar "run_no_of_tv_media" (Some 0) (Some 15) LpInteger.

Definition advertising_objective : LpAffineExpression :=
  add (times 1000000 run_no_of_print_media) (times 2000000 run_no_of_tv_media).
Definition advertising_cost : LpAffineExpression :=
  add (times 20000 run_no_of_print_media) (times 50000 run_no_of_tv_media).

Definition advertising_lp : LpProblem :=
  iadd_constraint
    (iadd_objective (new_problem "Advertisement Campaign" LpMaximize)
       advertising_objective "Number of maximum people reach with both media")
    (constrain advertising_cost LE 1000000) "Cost constraint".

(** *** What the solver capability is expected to return *)

Definition is_integer (q : Q) : Prop := exists z : Z, q == inject_Z z.

Definition in_domain (v : LpVariable) (q : Q) : Prop :=
  from_option (fun l => l <= q) True (lowBound v) /\
  from_option (fun u => q <= u) True (upBound v) /\
  (cat v = LpInteger -> is_integer q).

Definition holds (r : Relation) (q b : Q) : Prop :=
  match r with
  | LE => q <= b
  | GE => b <= q
  | EQ => q == b
  end.

Definition satisfies (a : gmap LpVariable Q) (c : LpConstraint) : Prop :=
  exists q, value a (expression c) = Some q /\ holds (relation c) q (rhs c).

(** [a] gives every variable of [p] a value in its domain and meets every
    constraint. *)
Definition feasible (p : LpProblem) (a : gmap LpVariable Q) : Prop :=
  (forall v, v ∈ var_set p -> exists q, a !! v = Some q /\ in_domain v q) /\
  Forall (satisfies a) (constraints p).

Definition objective_at (p : LpProblem) (a : gmap LpVariable Q) : option Q :=
  e ← objective p; value a e.

(** [o1] is at least as good as [o2], respectively strictly better. *)
Definition as_good (s : LpSense) (o1 o2 : Q) : Prop :=
  match s with
  | LpMaximize => o2 <= o1
  | LpMinimize => o1 <= o2
  end.

Definition better (s : LpSense) (o1 o2 : Q) : Prop :=
  match s with
  | LpMaximize => o2 < o1
  | LpMinimize => o1 < o2
  end.

Definition optimal (p : LpProblem) (a : gmap LpVariable Q) : Prop :=
  feasible p a /\
  exists o, objective_at p a = Some o /\
    forall a' o', feasible p a' -> objective_at p a' = Some o' -> as_good (sense p) o o'.

(** The result [r] is a correct answer to [p]: an optimal status comes with
    an optimal assignment, the other two with a proof of their name, and the
    solver does not give up. *)
Definition exact (p : LpProblem) (r : SolveResult) : Prop :=
  match res_status r with
  | LpStatusOptimal => optimal p (res_values r)
  | LpStatusInfeasible => forall a, ~ feasible p a
  | LpStatusUnbounded =>
      forall a o, feasible p a -> objective_at p a = Some o ->
        exists a' o', feasible p a' /\ objective_at p a' = Some o' /\ better (sense p) o' o
  | LpStatusNotSolved | LpStatusUndefined => False
  end.

(** A solver that answers every problem with the same assignment. *)
Definition constant_solver (vals : gmap LpVariable Q) : LpProblem -> SolveResult :=
  fun _ => mkResult LpStatusOptimal vals.

Definition factory_best : gmap LpVariable Q :=
  <[screws_tons_per_day := 120]> (<[nails_tons_per_day := 300]> ∅).

Definition advertising_best : gmap LpVariable Q :=
  <[run_no_of_print_media := 40]> (<[run_no_of_tv_media := 4]> ∅).

(** A rendering of numbers for the examples: Python prints a float of
    integral value as its digits followed by [.0], and [None] as [None].
    Other values are not rendered. *)
Definition str_sample (o : option Q) : string :=
  match o with
  | None => "None"
  | Some q =>
      match Qden (Qred q) with
      | xH => pretty (Qnum (Qred q)) +:+ ".0"
      | _ => "<float>"
      end
  end.

(** The lines printed in a trace, and the problems handed to the solver. *)
Definition printed (t : list Event) : list string :=
  omap (fun ev => match ev with EvPrint l => Some l | _ => None end) t.

Definition solved (t : list Event) : list LpProblem :=
  omap (fun ev => match ev with EvSolve p => Some p | _ => None end) t.

Definition written (t : list Event) : list (string * LpProblem) :=
  omap (fun ev => match ev with EvWriteLP f p => Some (f, p) | _ => None end) t.

(** The lines of [report]. *)
Definition report_lines (str : option Q -> string) (p : LpProblem) (label : string)
    : list string :=
  ([""; "Problem Name >> " +:+ pname p; "Status >> " +:+ LpStatus (status p)]
   ++ map (fun v => name v +:+ " = " +:+ str (varValue p v)) (variables p)
   ++ [label +:+ " = " +:+ str (objective_value p)])%list.

(** *** The models without integrality, and the files left behind *)

(** [a] gives every variable of [p] a value within its bounds and meets every
    constraint; the category of the variables is not looked at. *)
Definition in_bounds (v : LpVariable) (q : Q) : Prop :=
  from_option (fun l => l <= q) True (lowBound v) /\
  from_option (fun u => q <= u) True (upBound v).

Definition feasible_relaxed (p : LpProblem) (a : gmap LpVariable Q) : Prop :=
  (forall v, v ∈ var_set p -> exists q, a !! v = Some q /\ in_bounds v q) /\
  Forall (satisfies a) (constraints p).

(** Half an advertisement in each medium. *)
Definition advertising_half : gmap LpVariable Q :=
  <[run_no_of_print_media := 1 # 2]> (<[run_no_of_tv_media := 1 # 2]> ∅).

(** *** Solvers with a feasibility tolerance *)

(** A constraint counts as met when it is violated by no more than [tol]. *)
Definition holds_within (tol : Q) (r : Relation) (q b : Q) : Prop :=
  match r with
  | LE => q <= b + tol
  | GE => b - tol <= q
  | EQ => b - tol <= q /\ q <= b + tol
  end.

Definition satisfies_within (tol : Q) (a : gmap LpVariable Q) (c : LpConstraint) : Prop :=
  exists q, value a (expression c) = Some q /\ holds_within tol (relation c) q (rhs c).

(** [a] gives every variable of [p] a value in its domain, bounds and
    integrality taken exactly, and meets every constraint up to [tol]. *)
Definition feasible_within (tol : Q) (p : LpProblem) (a : gmap LpVariable Q) : Prop :=
  (forall v, v ∈ var_set p -> exists q, a !! v = Some q /\ in_domain v q) /\
  Forall (satisfies_within tol a) (constraints p).




(** The plan (121, 299). *)
Definition factory_second : gmap LpVariable Q :=
  <[screws_tons_per_day := 121]> (<[nails_tons_per_day := 299]> ∅).

(** The exported files after a trace: each export replaces what its path
    held. *)
Definition files_after (t : list Event) : gmap string LpProblem :=
  foldl (fun files ev =>
           match ev with
           | EvWriteLP f p => <[f := p]> files
           | _ => files
           end) ∅ t.

End LP.

(* ===================================================================== *)
(** ** Properties of the configuration loader *)
(* ===================================================================== *)

Section ConstantsProperties.

Import Constants.

Lemma global_os : global globals_at_Config "os" = inr (PyModule "os").
Proof. reflexivity. Qed.

Lemma global_json : global globals_at_Config "json" = inr (PyModule "json").
Proof. reflexivity. Qed.

Lemma Environment_unbound_at_Config : globals_at_Config !! "Environment" = None.
Proof. reflexivity. Qed.

Lemma import_constants_unfold (w : World) :
  import_constants w =
  match class_Config globals_at_Config w with
  | inl e => inl e
  | inr c => inr (module_of c)
  end.
Proof. unfold import_constants. destruct (class_Config _ _); reflexivity. Qed.

Lemma class_Config_unfold (w : World) :
  class_Config globals_at_Config w =
  match fs w !! config_path w with
  | None => inl (FileNotFoundError (config_path w))
  | Some (NotJson _) => inl JSONDecodeError
  | Some (JsonDoc cfg) => read_keys w cfg
  end.
Proof.
  unfold class_Config. rewrite global_os, global_json.
  unfold open, mbind, exc_bind.
  destruct (fs w !! config_path w) as [[raw|cfg]|]; reflexivity.
Qed.


Lemma has_key_subscript (v : JSON) (k : string) :
  has_key v k = true -> exists x, subscript v k = inr x.
Proof.
  destruct v; simpl; try discriminate.
  intros H. apply bool_decide_eq_true in H. destruct H as [x Hx].
  exists x. rewrite Hx. reflexivity.
Qed.


Lemma well_formed_keys (doc : JSON) :
  well_formed doc = true ->
  (forall k, In k top_keys -> has_key doc k = true) /\
  (forall k, In k path_keys -> has_key (paths_of doc) k = true).
Proof.
  unfold well_formed. intros H. apply andb_prop in H. destruct H as [H1 H2].
  rewrite forallb_forall in H1, H2. auto.
Qed.

Lemma read_keys_ok (w : World) (doc : JSON) :
  well_formed doc = true ->
  exists c, read_keys w doc = inr c /\ config c = doc /\
    PATH_PARENT c = dirname (cwd w) /\ config_file c = config_path w /\
    subscript doc "APP_NAME" = inr (APP_NAME c) /\
    subscript doc "VERSION" = inr (VERSION c) /\
    subscript doc "ENV" = inr (ENV c) /\
    subscript (paths_of doc) "SOURCE_CODE" = inr (PATH_SRC c) /\
    subscript (paths_of doc) "DATA" = inr (PATH_DATA c) /\
    subscript (paths_of doc) "LOG" = inr (PATH_LOG c) /\
    subscript (paths_of doc) "TEST" = inr (PATH_TEST c).
Proof.
  intros H. apply well_formed_keys in H. destruct H as [Ht Hp].
  destruct (has_key_subscript doc "APP_NAME") as [a Ha]; [apply Ht; simpl; auto|].
  destruct (has_key_subscript doc "VERSION") as [v Hv]; [apply Ht; simpl; auto|].
  destruct (has_key_subscript doc "ENV") as [e He]; [apply Ht; simpl; auto|].
  destruct (has_key_subscript doc "PATHS") as [p Hpp]; [apply Ht; simpl; auto|].
  assert (paths_of doc = p) as Hpo by (unfold paths_of; rewrite Hpp; reflexivity).
  rewrite Hpo in *.
  destruct (has_key_subscript p "SOURCE_CODE") as [s Hs]; [apply Hp; simpl; auto|].
  destruct (has_key_subscript p "DATA") as [d Hd]; [apply Hp; simpl; auto|].
  destruct (has_key_subscript p "LOG") as [l Hl]; [apply Hp; simpl; auto|].
  destruct (has_key_subscript p "TEST") as [t Htt]; [apply Hp; simpl; auto 6|].
  eexists. unfold read_keys, mbind, exc_bind, mret, exc_ret.
  rewrite Ha, Hv, He, Hpp, Hs, Hd, Hl, Htt. simpl. repeat split; reflexivity.
Qed.






Lemma module_of_Config (c : ConfigClass) : module_of c !! "Config" = Some (PyConfig c).
Proof.
  unfold module_of. rewrite lookup_insert_ne by discriminate.
  apply lookup_insert_eq.
Qed.



Lemma class_Config_ignores_Environment (g : gmap string PyObj) (o : PyObj) (w : World) :
  class_Config (<["Environment" := o]> g) w = class_Config g w.
Proof.
  unfold class_Config, global.
  rewrite !lookup_insert_ne by discriminate. reflexivity.
Qed.

Lemma well_formed_ENV (m : gmap string JSON) (e : JSON) :
  well_formed (JObj m) = true -> well_formed (JObj (<["ENV" := e]> m)) = true.
Proof.
  unfold well_formed. rewrite !andb_true_iff, !forallb_forall.
  intros [Ht Hp]. split; intros k Hk.
  - simpl. apply bool_decide_eq_true.
    destruct (decide (k = "ENV")) as [->|Hne].
    + rewrite lookup_insert_eq. eauto.
    + rewrite lookup_insert_ne by congruence.
      specialize (Ht k Hk). simpl in Ht. apply bool_decide_eq_true in Ht. exact Ht.
  - replace (paths_of (JObj (<["ENV" := e]> m))) with (paths_of (JObj m)); [auto|].
    unfold paths_of, subscript. rewrite lookup_insert_ne by discriminate. reflexivity.
Qed.

(** C8.  Whatever JSON value [e] the document holds under ENV, be it a
    number other than 1 and 9, a string or anything else, the import succeeds
    and [Config.ENV] is [e] itself.  The body of [class Config] runs before
    [Environment] is bound, and binding it beforehand would change nothing. *)
Theorem ENV_exposed_as_read (w : World) (m : gmap string JSON) (e : JSON)
    (Hfile : fs w !! config_path w = Some (JsonDoc (JObj (<["ENV" := e]> m))))
    (Hkeys : well_formed (JObj m) = true) :
  (exists c, import_constants w = inr (module_of c) /\
             module_of c !! "Config" = Some (PyConfig c) /\ ENV c = e) /\
  globals_at_Config !! "Environment" = None /\
  (forall o, class_Config (<["Environment" := o]> globals_at_Config) w
             = class_Config globals_at_Config w).
Proof.
  split; [| split; [reflexivity | intros o; apply class_Config_ignores_Environment]].
  rewrite import_constants_unfold, class_Config_unfold, Hfile.
  destruct (read_keys_ok w _ (well_formed_ENV m e Hkeys)) as (c & Hc & _ & _ & _ & _ & _ & He & _).
  exists c. rewrite Hc. split; [reflexivity|]. split; [apply module_of_Config|].
  simpl in He. rewrite lookup_insert_eq in He. congruence.
Qed.


Lemma ENV_exposed_as_read_witness :
  fs sample_world_env5 !! config_path sample_world_env5
    = Some (JsonDoc (JObj (<["ENV" := JInt 5]> sample_doc))) /\
  well_formed (JObj sample_doc) = true /\
  exists c, import_constants sample_world_env5 = inr (module_of c) /\
            module_of c !! "Config" = Some (PyConfig c) /\ ENV c = JInt 5.
Proof.
  split; [vm_compute; reflexivity|]. split; [vm_compute; reflexivity|].
  apply (ENV_exposed_as_read sample_world_env5 sample_doc (JInt 5));
    vm_compute; reflexivity.
Defined.

(** The loader on the sample environment, on an empty directory and on a
    document without VERSION. *)
Example import_sample :
  import_constants (sample_world (JObj sample_doc)) = inr (module_of sample_config).
Proof.
  rewrite import_constants_unfold.
  replace (class_Config globals_at_Config (sample_world (JObj sample_doc)))
    with (inr sample_config : PyExc + ConfigClass) by (vm_compute; reflexivity).
  reflexivity.
Qed.

Example import_no_file :
  import_constants (mkWorld "/srv/app/src" ∅)
  = inl (FileNotFoundError "/srv/app/config.json").
Proof. vm_compute. reflexivity. Qed.

Example import_no_version :
  import_constants (sample_world (JObj (delete "VERSION" sample_doc)))
  = inl (KeyError "VERSION").
Proof. vm_compute. reflexivity. Qed.

Example import_paths_not_object :
  import_constants (sample_world (JObj (<["PATHS" := JStr "src"]> sample_doc)))
  = inl TypeError.
Proof. vm_compute. reflexivity. Qed.

End ConstantsProperties.

(* ===================================================================== *)
(** ** Properties of the model-building layer and of the two examples *)
(* ===================================================================== *)

Section LPProperties.

Import LP.
Local Open Scope Q_scope.
Local Open Scope list_scope.

(** *** Running the monad *)

Lemma bind_ok {A B : Type} (m : M A) (k : A -> M B) (t t' : list Event) (a : A) :
  m t = (inr a, t') -> (x ← m; k x) t = k a t'.
Proof. intros H. unfold mbind, M_bind. rewrite H. reflexivity. Qed.

Lemma new_variable_ok (n : string) (l u : Q) (c : LpCategory) (t : list Event) :
  l <= u -> new_variable n (Some l) (Some u) c t = (inr (mkVar n (Some l) (Some u) c), t).
Proof.
  intros H. unfold new_variable.
  destruct (Qlt_le_dec u l) as [Hlt|Hle]; [|reflexivity].
  exfalso. exact (Qlt_not_le _ _ Hlt H).
Qed.

Lemma new_variable_raise (n : string) (l u : Q) (c : LpCategory) (t : list Event) :
  u < l -> new_variable n (Some l) (Some u) c t = (inl InvalidBoundsError, t).
Proof.
  intros H. unfold new_variable.
  destruct (Qlt_le_dec u l) as [Hlt|Hle]; [reflexivity|].
  exfalso. exact (Qlt_not_le _ _ H Hle).
Qed.

Lemma new_variable_trace (n : string) (lb ub : option Q) (c : LpCategory) (t : list Event) :
  snd (new_variable n lb ub c t) = t.
Proof.
  unfold new_variable. destruct lb as [l|], ub as [u|]; try reflexivity.
  destruct (Qlt_le_dec u l); reflexivity.
Qed.

Lemma writeLP_run (p : LpProblem) (path : string) (t : list Event) :
  writeLP p path t = (inr p, t ++ [EvWriteLP path p]).
Proof. reflexivity. Qed.

Lemma solve_run (solver : LpProblem -> SolveResult) (p : LpProblem) (t : list Event) :
  is_Some (objective p) ->
  solve solver p t = (inr (with_result p (solver p)), t ++ [EvSolve p]).
Proof. intros [e He]. unfold solve. rewrite He. reflexivity. Qed.

Lemma solve_raise (solver : LpProblem -> SolveResult) (p : LpProblem) (t : list Event) :
  objective p = None -> solve solver p t = (inl MissingObjectiveError, t).
Proof. intros He. unfold solve. rewrite He. reflexivity. Qed.

Lemma for_each_print {A : Type} (f : A -> string) (l : list A) (t : list Event) :
  for_each l (fun x => print (f x)) t = (inr tt, t ++ map EvPrint (map f l)).
Proof.
  revert t. induction l as [|x l IH]; intros t; simpl.
  - rewrite app_nil_r. reflexivity.
  - unfold mbind, M_bind, print, emit. rewrite IH.
    rewrite <- app_assoc. reflexivity.
Qed.

Lemma report_run (str : option Q -> string) (p : LpProblem) (label : string)
    (t : list Event) :
  report str p label t = (inr tt, t ++ map EvPrint (report_lines str p label)).
Proof.
  unfold report, report_lines.
  unfold mbind at 1 2 3 4, M_bind, print at 1 2 3, emit.
  rewrite for_each_print. unfold print, emit.
  rewrite !map_app, <- !app_assoc. reflexivity.
Qed.


Lemma factory_objective_set : objective factory_lp = Some factory_objective.
Proof. reflexivity. Qed.

Lemma advertising_objective_set : objective advertising_lp = Some advertising_objective.
Proof. reflexivity. Qed.

(** Both variable constructions succeed, and what each function then
    exports and solves is [factory_lp], respectively [advertising_lp]. *)
Lemma factory_built (solver : LpProblem -> SolveResult) (str : option Q -> string)
    (t : list Event) :
  factory_product_problem solver str t =
  (prob ← writeLP factory_lp "MaximisedProfit.lp";
   prob ← solve solver prob;
   report str prob "Ton for each product per day to maximise profit") t.
Proof.
  unfold factory_product_problem.
  rewrite (bind_ok _ _ t t screws_tons_per_day)
    by (apply new_variable_ok; unfold Qle; simpl; lia).
  rewrite (bind_ok _ _ t t nails_tons_per_day)
    by (apply new_variable_ok; unfold Qle; simpl; lia).
  reflexivity.
Qed.

Lemma advertising_built (solver : LpProblem -> SolveResult) (str : option Q -> string)
    (t : list Event) :
  advertising_campaign_problem solver str t =
  (prob ← writeLP advertising_lp "AdvertisementCampaign.lp";
   prob ← solve solver prob;
   report str prob "Maximum people reach by using both media") t.
Proof.
  unfold advertising_campaign_problem.
  rewrite (bind_ok _ _ t t run_no_of_print_media)
    by (apply new_variable_ok; unfold Qle; simpl; lia).
  rewrite (bind_ok _ _ t t run_no_of_tv_media)
    by (apply new_variable_ok; unfold Qle; simpl; lia).
  reflexivity.
Qed.

(** Each example function, for any solver: the export, the solver call and
    the report, in this order. *)
Lemma factory_run (solver : LpProblem -> SolveResult) (str : option Q -> string)
    (t : list Event) :
  factory_product_problem solver str t =
  (inr tt,
   t ++ [EvWriteLP "MaximisedProfit.lp" factory_lp; EvSolve factory_lp]
     ++ map EvPrint (report_lines str (with_result factory_lp (solver factory_lp))
                       "Ton for each product per day to maximise profit")).
Proof.
  rewrite factory_built.
  rewrite (bind_ok _ _ _ _ _ (writeLP_run _ _ _)).
  rewrite (bind_ok _ _ _ _ _ (solve_run solver factory_lp _ (mk_is_Some _ _ factory_objective_set))).
  rewrite report_run, <- !app_assoc. cbn [app]. reflexivity.
Qed.

Lemma advertising_run (solver : LpProblem -> SolveResult) (str : option Q -> string)
    (t : list Event) :
  advertising_campaign_problem solver str t =
  (inr tt,
   t ++ [EvWriteLP "AdvertisementCampaign.lp" advertising_lp; EvSolve advertising_lp]
     ++ map EvPrint (report_lines str (with_result advertising_lp (solver advertising_lp))
                       "Maximum people reach by using both media")).
Proof.
  rewrite advertising_built.
  rewrite (bind_ok _ _ _ _ _ (writeLP_run _ _ _)).
  rewrite (bind_ok _ _ _ _ _ (solve_run solver advertising_lp _ (mk_is_Some _ _ advertising_objective_set))).
  rewrite report_run, <- !app_assoc. cbn [app]. reflexivity.
Qed.

Lemma variables_with_result (p : LpProblem) (r : SolveResult) :
  variables (with_result p r) = variables p.
Proof. reflexivity. Qed.

Lemma factory_variables :
  variables factory_lp = [nails_tons_per_day; screws_tons_per_day].
Proof. vm_compute. reflexivity. Qed.

Lemma advertising_variables :
  variables advertising_lp = [run_no_of_print_media; run_no_of_tv_media].
Proof. vm_compute. reflexivity. Qed.

Lemma factory_var_set :
  elements (var_set factory_lp) = [screws_tons_per_day; nails_tons_per_day].
Proof. vm_compute. reflexivity. Qed.

Lemma factory_objective_terms :
  map_to_list (terms factory_objective)
  = [(screws_tons_per_day, 20); (nails_tons_per_day, 30)].
Proof. vm_compute. reflexivity. Qed.

(** The coefficients of the working-hour row, as line 46 computes them:
    the doubles next to 1/60 and 1/50, multiples of 2^-58. *)
Lemma truediv_1_60 : truediv 1 60 = 4803839602528529 # 288230376151711744.
Proof. vm_compute. reflexivity. Qed.

Lemma truediv_1_50 : truediv 1 50 = 5764607523034235 # 288230376151711744.
Proof. vm_compute. reflexivity. Qed.

Lemma factory_hours_terms :
  map_to_list (terms factory_hours)
  = [(screws_tons_per_day, 4803839602528529 # 288230376151711744);
     (nails_tons_per_day, 5764607523034235 # 288230376151711744)].
Proof. vm_compute. reflexivity. Qed.

Lemma factory_objective_constant : constant factory_objective = 0.
Proof. vm_compute. reflexivity. Qed.

Lemma factory_hours_constant : constant factory_hours = 0.
Proof. vm_compute. reflexivity. Qed.

Lemma factory_constraints :
  constraints factory_lp = [mkConstraint factory_hours LE 8 "Working Hour constraint"].
Proof. reflexivity. Qed.

(** The expression [c1 * x + c2 * y] with no constant, at the values [a]. *)
Lemma value_two (a : gmap LpVariable Q) (e : LpAffineExpression)
    (x y : LpVariable) (c1 c2 qx qy : Q) :
  map_to_list (terms e) = [(x, c1); (y, c2)] -> constant e = 0 ->
  a !! x = Some qx -> a !! y = Some qy ->
  value a e = Some (0 + qy * c2 + qx * c1).
Proof.
  intros Ht Hc Hx Hy. unfold value. rewrite Ht, Hc. simpl.
  rewrite Hy. simpl. rewrite Hx. reflexivity.
Qed.

(** *** The optimum of the factory model *)

Lemma in_var_set (p : LpProblem) (l : list LpVariable) (v : LpVariable) :
  elements (var_set p) = l -> (v ∈ var_set p <-> In v l).
Proof.
  intros <-. rewrite <- elem_of_elements. apply list_elem_of_In.
Qed.

(** A point that is feasible is feasible within the tolerance 0. *)
Lemma feasible_within_0 (p : LpProblem) (a : gmap LpVariable Q) :
  feasible p a -> feasible_within 0 p a.
Proof.
  intros [Hdom Hcons]. split; [exact Hdom|].
  eapply Forall_impl; [exact Hcons|].
  intros c (q & Hq & Hh). exists q. split; [exact Hq|].
  unfold holds, holds_within in *. destruct (relation c); lra.
Qed.

(** Every point of the factory model that is feasible within [tol] is a pair
    of integers in the box that meets the working-hour row up to [tol], and
    its objective is [20 x + 30 y]. *)
Lemma factory_within_inv (tol : Q) (a : gmap LpVariable Q) :
  feasible_within tol factory_lp a ->
  exists (qx qy : Q) (zx zy : Z),
    a !! screws_tons_per_day = Some qx /\ a !! nails_tons_per_day = Some qy /\
    qx == inject_Z zx /\ qy == inject_Z zy /\
    (0 <= zx <= 400)%Z /\ (0 <= zy <= 300)%Z /\
    0 + inject_Z zy * (5764607523034235 # 288230376151711744)
      + inject_Z zx * (4803839602528529 # 288230376151711744) <= 8 + tol /\
    objective_at factory_lp a = Some (0 + qy * 30 + qx * 20).
Proof.
  intros [Hdom Hcons].
  destruct (Hdom screws_tons_per_day) as (qx & Hx & Hlx & Hux & Hix).
  { apply (in_var_set _ _ _ factory_var_set). simpl. auto. }
  destruct (Hdom nails_tons_per_day) as (qy & Hy & Hly & Huy & Hiy).
  { apply (in_var_set _ _ _ factory_var_set). simpl. auto. }
  destruct (Hix eq_refl) as [zx Hzx]. destruct (Hiy eq_refl) as [zy Hzy].
  simpl in Hlx, Hux, Hly, Huy.
  rewrite factory_constraints in Hcons.
  apply Forall_cons_1 in Hcons. destruct Hcons as [(q & Hq & Hle) _].
  cbn [expression relation rhs holds_within] in Hq, Hle.
  rewrite (value_two a _ _ _ _ _ qx qy factory_hours_terms factory_hours_constant Hx Hy) in Hq.
  injection Hq as <-.
  exists qx, qy, zx, zy.
  rewrite Hzx in Hlx, Hux. rewrite Hzy in Hly, Huy. rewrite Hzx, Hzy in Hle.
  repeat split; try assumption.
  - unfold Qle in Hlx. simpl in Hlx. lia.
  - unfold Qle in Hux. simpl in Hux. lia.
  - unfold Qle in Hly. simpl in Hly. lia.
  - unfold Qle in Huy. simpl in Huy. lia.
  - unfold objective_at. rewrite factory_objective_set.
    exact (value_two a _ _ _ _ _ qx qy factory_objective_terms factory_objective_constant Hx Hy).
Qed.

(** The working-hour row at (120, 300): the doubles make it 8 + 7/2^56. *)
Lemma factory_row_at_best :
  0 + 300 * (5764607523034235 # 288230376151711744)
    + 120 * (4803839602528529 # 288230376151711744) == 8 + (7 # 72057594037927936).
Proof. reflexivity. Qed.

Lemma factory_domain (v : LpVariable) (a : gmap LpVariable Q) (zx zy : Z) :
  a !! screws_tons_per_day = Some (inject_Z zx) ->
  a !! nails_tons_per_day = Some (inject_Z zy) ->
  (0 <= zx <= 400)%Z -> (0 <= zy <= 300)%Z ->
  v ∈ var_set factory_lp -> exists q, a !! v = Some q /\ in_domain v q.
Proof.
  intros Hx Hy Bx By Hv. apply (in_var_set _ _ _ factory_var_set) in Hv.
  destruct Hv as [<-|[<-|[]]].
  - exists (inject_Z zx). split; [exact Hx|].
    repeat split; try (simpl; unfold Qle; simpl; lia).
    intros _. exists zx. reflexivity.
  - exists (inject_Z zy). split; [exact Hy|].
    repeat split; try (simpl; unfold Qle; simpl; lia).
    intros _. exists zy. reflexivity.
Qed.

Lemma factory_best_values :
  factory_best !! nails_tons_per_day = Some 300 /\
  factory_best !! screws_tons_per_day = Some 120.
Proof. split; vm_compute; reflexivity. Qed.

Lemma factory_second_values :
  factory_second !! nails_tons_per_day = Some 299 /\
  factory_second !! screws_tons_per_day = Some 121.
Proof. split; vm_compute; reflexivity. Qed.



Lemma factory_best_objective :
  objective_at factory_lp factory_best = Some (0 + 300 * 30 + 120 * 20).
Proof.
  unfold objective_at. rewrite factory_objective_set.
  apply (value_two factory_best _ _ _ _ _ 120 300
           factory_objective_terms factory_objective_constant); vm_compute; reflexivity.
Qed.

Lemma factory_second_feasible : feasible factory_lp factory_second.
Proof.
  destruct factory_second_values as [Hy Hx]. split.
  - intros v. apply (factory_domain v factory_second 121 299 Hx Hy); lia.
  - rewrite factory_constraints. constructor; [|constructor].
    eexists. cbn [expression relation rhs holds]. split.
    + exact (value_two factory_second _ _ _ _ _ 121 299
               factory_hours_terms factory_hours_constant Hx Hy).
    + lra.
Qed.

Lemma factory_second_objective :
  objective_at factory_lp factory_second = Some (0 + 299 * 30 + 121 * 20).
Proof.
  unfold objective_at. rewrite factory_objective_set.
  apply (value_two factory_second _ _ _ _ _ 121 299
           factory_objective_terms factory_objective_constant); vm_compute; reflexivity.
Qed.


(** Taken exactly the row excludes (120, 300): no feasible point earns more
    than 11390, and only (121, 299) earns it. *)
Lemma factory_exact_bound (a : gmap LpVariable Q) (o : Q) :
  feasible factory_lp a -> objective_at factory_lp a = Some o ->
  o <= 11390 /\
  (11390 <= o ->
   exists qx qy, a !! screws_tons_per_day = Some qx /\ a !! nails_tons_per_day = Some qy /\
                 qx == 121 /\ qy == 299 /\ o == 11390).
Proof.
  intros Hf Ho. apply feasible_within_0 in Hf.
  destruct (factory_within_inv 0 a Hf)
    as (qx & qy & zx & zy & Hx & Hy & Hzx & Hzy & Bx & By & Hrow & Hobj).
  rewrite Hobj in Ho. injection Ho as <-.
  assert (0 + inject_Z zy * (5764607523034235 # 288230376151711744)
            + inject_Z zx * (4803839602528529 # 288230376151711744) <= 8) as Hrow' by lra.
  clear Hrow. unfold Qle in Hrow'. simpl in Hrow'.
  split.
  - rewrite Hzx, Hzy. unfold Qle. simpl. lia.
  - intros Hge. rewrite Hzx, Hzy in Hge. unfold Qle in Hge. simpl in Hge.
    assert (zx = 121%Z /\ zy = 299%Z) as [-> ->] by lia.
    exists qx, qy. repeat split; try assumption.
    rewrite Hzx, Hzy. reflexivity.
Qed.


(** What a solver that enforces the row exactly must answer. *)
Lemma factory_exact_answer (r : SolveResult) :
  exact factory_lp r ->
  res_status r = LpStatusOptimal /\
  exists vx vy vo : Q,
    res_values r !! screws_tons_per_day = Some vx /\
    res_values r !! nails_tons_per_day = Some vy /\
    value (res_values r) factory_objective = Some vo /\
    vx == 121 /\ vy == 299 /\ vo == 11390.
Proof.
  unfold exact. destruct (res_status r) eqn:Hs; try contradiction.
  - intros (Hf & o & Ho & Hopt). split; [reflexivity|].
    pose proof (Hopt _ _ factory_second_feasible factory_second_objective) as Hge.
    simpl in Hge.
    destruct (factory_exact_bound _ _ Hf Ho) as [_ Huniq].
    destruct Huniq as (qx & qy & Hx & Hy & Ex & Ey & Eo); [lra|].
    exists qx, qy, o. unfold objective_at in Ho. rewrite factory_objective_set in Ho.
    repeat split; assumption.
  - intros Hinf. exfalso. exact (Hinf _ factory_second_feasible).
  - intros Hunb. exfalso.
    destruct (Hunb _ _ factory_second_feasible factory_second_objective)
      as (a' & o' & Hf' & Ho' & Hlt).
    destruct (factory_exact_bound _ _ Hf' Ho') as [Hle _].
    simpl in Hlt. lra.
Qed.



(** *** The optimum of the advertising model *)

Lemma advertising_var_set :
  elements (var_set advertising_lp) = [run_no_of_tv_media; run_no_of_print_media].
Proof. vm_compute. reflexivity. Qed.

Lemma advertising_objective_terms :
  map_to_list (terms advertising_objective)
  = [(run_no_of_tv_media, 2000000); (run_no_of_print_media, 1000000)].
Proof. vm_compute. reflexivity. Qed.

Lemma advertising_cost_terms :
  map_to_list (terms advertising_cost)
  = [(run_no_of_tv_media, 50000); (run_no_of_print_media, 20000)].
Proof. vm_compute. reflexivity. Qed.

Lemma advertising_objective_constant : constant advertising_objective = 0.
Proof. vm_compute. reflexivity. Qed.

Lemma advertising_cost_constant : constant advertising_cost = 0.
Proof. vm_compute. reflexivity. Qed.

Lemma advertising_constraints :
  constraints advertising_lp = [mkConstraint advertising_cost LE 1000000 "Cost constraint"].
Proof. reflexivity. Qed.


Lemma advertising_feasible_inv (a : gmap LpVariable Q) :
  feasible advertising_lp a ->
  exists (qx qy : Q) (zx zy : Z),
    a !! run_no_of_print_media = Some qx /\ a !! run_no_of_tv_media = Some qy /\
    qx == inject_Z zx /\ qy == inject_Z zy /\
    (0 <= zx <= 40)%Z /\ (0 <= zy <= 15)%Z /\ (2 * zx + 5 * zy <= 100)%Z /\
    objective_at advertising_lp a = Some (0 + qx * 1000000 + qy * 2000000).
Proof.
  intros [Hdom Hcons].
  destruct (Hdom run_no_of_print_media) as (qx & Hx & Hlx & Hux & Hix).
  { apply (in_var_set _ _ _ advertising_var_set). simpl. auto. }
  destruct (Hdom run_no_of_tv_media) as (qy & Hy & Hly & Huy & Hiy).
  { apply (in_var_set _ _ _ advertising_var_set). simpl. auto. }
  destruct (Hix eq_refl) as [zx Hzx]. destruct (Hiy eq_refl) as [zy Hzy].
  simpl in Hlx, Hux, Hly, Huy.
  rewrite advertising_constraints in Hcons.
  apply Forall_cons_1 in Hcons. destruct Hcons as [(q & Hq & Hle) _].
  cbn [expression relation rhs holds] in Hq, Hle.
  rewrite (value_two a _ _ _ _ _ qy qx advertising_cost_terms advertising_cost_constant Hy Hx) in Hq.
  injection Hq as <-.
  exists qx, qy, zx, zy.
  rewrite Hzx in Hlx, Hux. rewrite Hzy in Hly, Huy. rewrite Hzx, Hzy in Hle.
  repeat split; try assumption.
  - unfold Qle in Hlx. simpl in Hlx. lia.
  - unfold Qle in Hux. simpl in Hux. lia.
  - unfold Qle in Hly. simpl in Hly. lia.
  - unfold Qle in Huy. simpl in Huy. lia.
  - unfold Qle in Hle. simpl in Hle. lia.
  - unfold objective_at. rewrite advertising_objective_set.
    exact (value_two a _ _ _ _ _ qy qx advertising_objective_terms
             advertising_objective_constant Hy Hx).
Qed.

Lemma advertising_best_feasible : feasible advertising_lp advertising_best.
Proof.
  split.
  - intros v Hv. apply (in_var_set _ _ _ advertising_var_set) in Hv.
    destruct Hv as [<-|[<-|[]]].
    + exists 4. split; [vm_compute; reflexivity|].
      repeat split; try (simpl; unfold Qle; simpl; lia).
      intros _. exists 4%Z. reflexivity.
    + exists 40. split; [vm_compute; reflexivity|].
      repeat split; try (simpl; unfold Qle; simpl; lia).
      intros _. exists 40%Z. reflexivity.
  - rewrite advertising_constraints. constructor; [|constructor].
    eexists. cbn [expression relation rhs holds]. split.
    + apply (value_two advertising_best _ _ _ _ _ 4 40
               advertising_cost_terms advertising_cost_constant); vm_compute; reflexivity.
    + unfold Qle. simpl. lia.
Qed.

Lemma advertising_best_objective :
  objective_at advertising_lp advertising_best = Some (0 + 40 * 1000000 + 4 * 2000000).
Proof.
  unfold objective_at. rewrite advertising_objective_set.
  apply (value_two advertising_best _ _ _ _ _ 4 40
           advertising_objective_terms advertising_objective_constant); vm_compute; reflexivity.
Qed.

(** No feasible campaign reaches more than 48 million people, and only
    (40, 4) reaches them: [2 (x + 2 y) = (2 x + 5 y) - y <= 100 - y], so
    [x + 2 y >= 48] forces [y <= 4] and then [x >= 40]. *)
Lemma advertising_bound (a : gmap LpVariable Q) (o : Q) :
  feasible advertising_lp a -> objective_at advertising_lp a = Some o ->
  o <= 48000000 /\
  (48000000 <= o ->
   exists qx qy, a !! run_no_of_print_media = Some qx /\ a !! run_no_of_tv_media = Some qy /\
                 qx == 40 /\ qy == 4 /\ o == 48000000).
Proof.
  intros Hf Ho.
  destruct (advertising_feasible_inv a Hf)
    as (qx & qy & zx & zy & Hx & Hy & Hzx & Hzy & Bx & By & Hh & Hobj).
  rewrite Hobj in Ho. injection Ho as <-.
  split.
  - rewrite Hzx, Hzy. unfold Qle. simpl. lia.
  - intros Hge. rewrite Hzx, Hzy in Hge. unfold Qle in Hge. simpl in Hge.
    assert (zx = 40%Z /\ zy = 4%Z) as [-> ->] by lia.
    exists qx, qy. repeat split; try assumption.
    rewrite Hzx, Hzy. reflexivity.
Qed.

(** What an exact answer to the advertising model must be. *)
Lemma advertising_exact_answer (r : SolveResult) :
  exact advertising_lp r ->
  res_status r = LpStatusOptimal /\
  exists vx vy vo : Q,
    res_values r !! run_no_of_print_media = Some vx /\
    res_values r !! run_no_of_tv_media = Some vy /\
    value (res_values r) advertising_objective = Some vo /\
    vx == 40 /\ vy == 4 /\ vo == 48000000.
Proof.
  unfold exact. destruct (res_status r) eqn:Hs; try contradiction.
  - intros (Hf & o & Ho & Hbest). split; [reflexivity|].
    pose proof (Hbest _ _ advertising_best_feasible advertising_best_objective) as Hge.
    simpl in Hge.
    destruct (advertising_bound _ _ Hf Ho) as [_ Huniq].
    destruct Huniq as (qx & qy & Hx & Hy & Ex & Ey & Eo).
    { eapply Qle_trans; [|exact Hge]. unfold Qle. simpl. lia. }
    exists qx, qy, o. unfold objective_at in Ho. rewrite advertising_objective_set in Ho.
    repeat split; assumption.
  - intros Hinf. exfalso. exact (Hinf _ advertising_best_feasible).
  - intros Hunb. exfalso.
    destruct (Hunb _ _ advertising_best_feasible advertising_best_objective)
      as (a' & o' & Hf' & Ho' & Hlt).
    destruct (advertising_bound _ _ Hf' Ho') as [Hle _].
    simpl in Hlt. apply (Qlt_not_le _ _ Hlt).
    eapply Qle_trans; [exact Hle|]. unfold Qle. simpl. lia.
Qed.


(** *** Reading a solved problem *)

Lemma status_with_result (p : LpProblem) (r : SolveResult) :
  status (with_result p r) = res_status r.
Proof. reflexivity. Qed.

Lemma pname_with_result (p : LpProblem) (r : SolveResult) :
  pname (with_result p r) = pname p.
Proof. reflexivity. Qed.

Lemma varValue_with_result (p : LpProblem) (r : SolveResult) (v : LpVariable) :
  varValue (with_result p r) v = res_values r !! v.
Proof. reflexivity. Qed.

Lemma objective_value_with_result (p : LpProblem) (r : SolveResult) (e : LpAffineExpression) :
  objective p = Some e -> objective_value (with_result p r) = value (res_values r) e.
Proof. intros He. unfold objective_value, with_result. simpl. rewrite He. reflexivity. Qed.

Lemma factory_report (str : option Q -> string) (r : SolveResult) (label : string) :
  report_lines str (with_result factory_lp r) label =
  [""; "Problem Name >> Factory Products Profit";
   "Status >> " +:+ LpStatus (res_status r);
   "nails_tons_per_day = " +:+ str (res_values r !! nails_tons_per_day);
   "screws_tons_per_day = " +:+ str (res_values r !! screws_tons_per_day);
   label +:+ " = " +:+ str (value (res_values r) factory_objective)].
Proof.
  unfold report_lines.
  rewrite variables_with_result, factory_variables, status_with_result, pname_with_result.
  rewrite (objective_value_with_result factory_lp r factory_objective factory_objective_set).
  cbn [map app]. rewrite !varValue_with_result. reflexivity.
Qed.

Lemma advertising_report (str : option Q -> string) (r : SolveResult) (label : string) :
  report_lines str (with_result advertising_lp r) label =
  [""; "Problem Name >> Advertisement Campaign";
   "Status >> " +:+ LpStatus (res_status r);
   "run_no_of_print_media = " +:+ str (res_values r !! run_no_of_print_media);
   "run_no_of_tv_media = " +:+ str (res_values r !! run_no_of_tv_media);
   label +:+ " = " +:+ str (value (res_values r) advertising_objective)].
Proof.
  unfold report_lines.
  rewrite variables_with_result, advertising_variables, status_with_result, pname_with_result.
  rewrite (objective_value_with_result advertising_lp r advertising_objective advertising_objective_set).
  cbn [map app]. rewrite !varValue_with_result. reflexivity.
Qed.


Lemma advertising_best_exact :
  exact advertising_lp (constant_solver advertising_best advertising_lp).
Proof.
  unfold exact, constant_solver. simpl. split; [exact advertising_best_feasible|].
  eexists. split; [exact advertising_best_objective|].
  intros a' o' Hf Ho. simpl.
  destruct (advertising_bound a' o' Hf Ho) as [Hle _].
  eapply Qle_trans; [exact Hle|]. unfold Qle. simpl. lia.
Qed.




(** C2.  The advertising model is built as maximise 1000000 x + 2000000 y
    with x in [0, 40], y in [0, 15], both integer, and
    20000 x + 50000 y <= 1000000.  With any solver that answers this model
    exactly, the solved problem has status Optimal, x
    (run_no_of_print_media) = 40, y (run_no_of_tv_media) = 4 and objective
    value 48000000, and [advertising_campaign_problem] exports, solves and
    prints exactly these. *)
Theorem advertising_campaign_problem_optimum
    (solver : LpProblem -> SolveResult) (str : option Q -> string) (t : list Event)
    (Hsolver : exact advertising_lp (solver advertising_lp)) :
  exists vx vy vo : Q,
    vx == 40 /\ vy == 4 /\ vo == 48000000 /\
    status (with_result advertising_lp (solver advertising_lp)) = LpStatusOptimal /\
    varValue (with_result advertising_lp (solver advertising_lp)) run_no_of_print_media
      = Some vx /\
    varValue (with_result advertising_lp (solver advertising_lp)) run_no_of_tv_media
      = Some vy /\
    objective_value (with_result advertising_lp (solver advertising_lp)) = Some vo /\
    advertising_campaign_problem solver str t =
    (inr tt,
     t ++ [EvWriteLP "AdvertisementCampaign.lp" advertising_lp; EvSolve advertising_lp;
           EvPrint "";
           EvPrint "Problem Name >> Advertisement Campaign";
           EvPrint "Status >> Optimal";
           EvPrint ("run_no_of_print_media = " +:+ str (Some vx));
           EvPrint ("run_no_of_tv_media = " +:+ str (Some vy));
           EvPrint ("Maximum people reach by using both media = " +:+ str (Some vo))]).
Proof.
  destruct (advertising_exact_answer _ Hsolver)
    as (Hst & vx & vy & vo & Hx & Hy & Ho & Ex & Ey & Eo).
  exists vx, vy, vo.
  split; [exact Ex|]. split; [exact Ey|]. split; [exact Eo|].
  split; [rewrite status_with_result; exact Hst|].
  split; [rewrite varValue_with_result; exact Hx|].
  split; [rewrite varValue_with_result; exact Hy|].
  split.
  - rewrite (objective_value_with_result advertising_lp _ advertising_objective
               advertising_objective_set).
    exact Ho.
  - rewrite advertising_run, advertising_report, Hst, Hx, Hy, Ho. reflexivity.
Qed.

Lemma advertising_campaign_problem_optimum_witness :
  exact advertising_lp (constant_solver advertising_best advertising_lp) /\
  exists vx vy vo : Q,
    vx == 40 /\ vy == 4 /\ vo == 48000000 /\
    status (with_result advertising_lp (constant_solver advertising_best advertising_lp))
      = LpStatusOptimal /\
    varValue (with_result advertising_lp (constant_solver advertising_best advertising_lp))
      run_no_of_print_media = Some vx /\
    varValue (with_result advertising_lp (constant_solver advertising_best advertising_lp))
      run_no_of_tv_media = Some vy /\
    objective_value (with_result advertising_lp (constant_solver advertising_best advertising_lp))
      = Some vo /\
    advertising_campaign_problem (constant_solver advertising_best) str_sample [] =
    (inr tt,
     [] ++ [EvWriteLP "AdvertisementCampaign.lp" advertising_lp; EvSolve advertising_lp;
           EvPrint "";
           EvPrint "Problem Name >> Advertisement Campaign";
           EvPrint "Status >> Optimal";
           EvPrint ("run_no_of_print_media = " +:+ str_sample (Some vx));
           EvPrint ("run_no_of_tv_media = " +:+ str_sample (Some vy));
           EvPrint ("Maximum people reach by using both media = "
                    +:+ str_sample (Some vo))]).
Proof.
  split; [exact advertising_best_exact|].
  exact (advertising_campaign_problem_optimum (constant_solver advertising_best)
           str_sample [] advertising_best_exact).
Defined.


(** *** Expressions *)

(** Addition of rationals is commutative and associative on the
    representations themselves, not only up to [==]. *)
Lemma Qplus_comm_L (a b : Q) : a + b = b + a.
Proof.
  destruct a as [na da], b as [nb db]. unfold Qplus. simpl.
  f_equal; [lia | apply Pos.mul_comm].
Qed.

Lemma Qplus_assoc_L (a b c : Q) : (a + b) + c = a + (b + c).
Proof.
  destruct a as [na da], b as [nb db], c as [nc dc]. unfold Qplus. simpl.
  f_equal; [rewrite !Pos2Z.inj_mul; ring | symmetry; apply Pos.mul_assoc].
Qed.

Lemma add_term_lookup (e : LpAffineExpression) (v : LpVariable) (c : Q) :
  terms (add_term e v c) !! v
  = Some (match terms e !! v with Some c0 => c0 + c | None => c end).
Proof.
  unfold add_term. destruct (terms e !! v); simpl; apply lookup_insert_eq.
Qed.

Lemma add_term_lookup_ne (e : LpAffineExpression) (v v' : LpVariable) (c : Q) :
  v' <> v -> terms (add_term e v c) !! v' = terms e !! v'.
Proof.
  intros Hne. unfold add_term.
  destruct (terms e !! v); simpl; apply lookup_insert_ne; congruence.
Qed.

Lemma add_term_constant (e : LpAffineExpression) (v : LpVariable) (c : Q) :
  constant (add_term e v c) = constant e.
Proof. unfold add_term. destruct (terms e !! v); reflexivity. Qed.

Lemma add_lookup (e1 e2 : LpAffineExpression) (v : LpVariable) :
  terms (add e1 e2) !! v
  = match terms e1 !! v, terms e2 !! v with
    | Some c1, Some c2 => Some (c1 + c2)
    | Some c1, None => Some c1
    | None, o => o
    end.
Proof.
  unfold add. simpl. rewrite lookup_union_with.
  destruct (terms e1 !! v), (terms e2 !! v); reflexivity.
Qed.

Lemma expr_eq (e1 e2 : LpAffineExpression) :
  (forall v, terms e1 !! v = terms e2 !! v) -> constant e1 = constant e2 -> e1 = e2.
Proof.
  destruct e1 as [t1 c1], e2 as [t2 c2]. simpl. intros Ht ->.
  f_equal. apply map_eq. exact Ht.
Qed.

Lemma add_comm (e1 e2 : LpAffineExpression) : add e1 e2 = add e2 e1.
Proof.
  apply expr_eq.
  - intros v. rewrite !add_lookup.
    destruct (terms e1 !! v), (terms e2 !! v); try reflexivity.
    f_equal. apply Qplus_comm_L.
  - simpl. apply Qplus_comm_L.
Qed.

Lemma add_assoc (e1 e2 e3 : LpAffineExpression) :
  add (add e1 e2) e3 = add e1 (add e2 e3).
Proof.
  apply expr_eq.
  - intros v. rewrite !add_lookup.
    destruct (terms e1 !! v), (terms e2 !! v), (terms e3 !! v); try reflexivity.
    f_equal. apply Qplus_assoc_L.
  - simpl. apply Qplus_assoc_L.
Qed.

(** Adding [c * v] as an expression accumulates like adding the term. *)
Lemma add_times_terms (e : LpAffineExpression) (v : LpVariable) (c : Q) :
  terms (add e (times c v)) = terms (add_term e v c).
Proof.
  apply map_eq. intros v'. rewrite add_lookup. unfold times.
  destruct (decide (v' = v)) as [->|Hne].
  - rewrite !add_term_lookup. simpl. rewrite lookup_empty.
    destruct (terms e !! v); reflexivity.
  - rewrite !add_term_lookup_ne by exact Hne. simpl. rewrite lookup_empty.
    destruct (terms e !! v'); reflexivity.
Qed.

Lemma add_term_terms_ext (e1 e2 : LpAffineExpression) (v : LpVariable) (c : Q) :
  terms e1 = terms e2 -> terms (add_term e1 v c) = terms (add_term e2 v c).
Proof.
  intros H. unfold add_term. rewrite H.
  destruct (terms e2 !! v); reflexivity.
Qed.

(** C3, as the code has it.  Adding [v] with coefficient [a] and then again
    with coefficient [b] leaves one term for [v]; its coefficient is [a + b]
    on top of the coefficient [v] already had in [e], hence [a + b] exactly
    when [e] had no term for [v].  The other terms and the constant are
    untouched, and addition of expressions is commutative and associative. *)
Theorem add_term_accumulates (e : LpAffineExpression) (v : LpVariable) (a b : Q) :
  terms (add_term (add_term e v a) v b) !! v
    = Some (match terms e !! v with Some c => c + a + b | None => a + b end) /\
  coefficient (add_term (add_term e v a) v b) v == coefficient e v + (a + b) /\
  (forall v', v' <> v -> terms (add_term (add_term e v a) v b) !! v' = terms e !! v') /\
  constant (add_term (add_term e v a) v b) = constant e /\
  terms (add (add e (times a v)) (times b v)) = terms (add_term (add_term e v a) v b) /\
  (forall e1 e2, add e1 e2 = add e2 e1) /\
  (forall e1 e2 e3, add (add e1 e2) e3 = add e1 (add e2 e3)).
Proof.
  split; [|split; [|split; [|split; [|split; [|split]]]]].
  - rewrite !add_term_lookup. destruct (terms e !! v); reflexivity.
  - unfold coefficient. rewrite !add_term_lookup.
    destruct (terms e !! v); simpl; ring.
  - intros v' Hne. rewrite !add_term_lookup_ne by exact Hne. reflexivity.
  - rewrite !add_term_constant. reflexivity.
  - rewrite add_times_terms. apply add_term_terms_ext, add_times_terms.
  - exact add_comm.
  - exact add_assoc.
Qed.

(** C3 as stated fails: starting from the expression [1 * x], adding [x] with
    coefficient 1 twice gives the coefficient 3, not 1 + 1. *)
Lemma add_term_not_only_a_plus_b :
  exists c : Q,
    terms (add_term (add_term (times 1 screws_tons_per_day) screws_tons_per_day 1)
             screws_tons_per_day 1) !! screws_tons_per_day = Some c /\
    c == 3 /\ ~ c == 1 + 1.
Proof.
  eexists. split; [vm_compute; reflexivity|].
  split; [reflexivity | discriminate].
Qed.


(** *** Errors *)

(** C4.  [solve] raises [MissingObjectiveError] on a problem without
    objective, and then the solver is not called: the trace is unchanged.  On
    a problem with an objective it calls the solver once and returns the
    problem with the solver's status in its status field, whichever status
    that is; it does not raise. *)
Theorem solve_outcomes (solver : LpProblem -> SolveResult) (p : LpProblem)
    (t : list Event) :
  match objective p with
  | None => solve solver p t = (inl MissingObjectiveError, t)
  | Some _ =>
      solve solver p t = (inr (with_result p (solver p)), t ++ [EvSolve p]) /\
      status (with_result p (solver p)) = res_status (solver p)
  end.
Proof.
  destruct (objective p) as [e|] eqn:He.
  - split; [|reflexivity]. apply solve_run. rewrite He. eauto.
  - apply solve_raise. exact He.
Qed.

(** Infeasible, unbounded and undefined answers come back as a status. *)
Example solve_reports_status (s : LpStatusCode) (t : list Event) :
  exists p', solve (fun _ => mkResult s ∅) factory_lp t = (inr p', t ++ [EvSolve factory_lp])
             /\ status p' = s.
Proof.
  eexists. split; [apply solve_run; rewrite factory_objective_set; eauto | reflexivity].
Qed.

Example solve_without_objective (solver : LpProblem -> SolveResult) :
  solve solver (new_problem "empty" LpMinimize) [] = (inl MissingObjectiveError, []).
Proof. reflexivity. Qed.

(** C5.  Constructing a variable with both bounds given and
    lowerBound > upperBound raises [InvalidBoundsError]; and whatever the
    bounds, construction leaves the trace as it was. *)
Theorem new_variable_invalid_bounds (n : string) (l u : Q) (c : LpCategory)
    (t : list Event) (Hbounds : u < l) :
  new_variable n (Some l) (Some u) c t = (inl InvalidBoundsError, t) /\
  (forall n' lb ub c', snd (new_variable n' lb ub c' t) = t).
Proof.
  split; [apply new_variable_raise; exact Hbounds|].
  intros. apply new_variable_trace.
Qed.

Lemma new_variable_invalid_bounds_witness :
  5 < 10 /\
  new_variable "x" (Some 10) (Some 5) LpContinuous [] = (inl InvalidBoundsError, []) /\
  (forall n' lb ub c', snd (new_variable n' lb ub c' []) = []).
Proof.
  split; [reflexivity|].
  apply (new_variable_invalid_bounds "x" 10 5 LpContinuous []). reflexivity.
Defined.

(** *** Traces *)

Lemma printed_app (t1 t2 : list Event) : printed (t1 ++ t2) = printed t1 ++ printed t2.
Proof. apply omap_app. Qed.

Lemma solved_app (t1 t2 : list Event) : solved (t1 ++ t2) = solved t1 ++ solved t2.
Proof. apply omap_app. Qed.

Lemma written_app (t1 t2 : list Event) : written (t1 ++ t2) = written t1 ++ written t2.
Proof. apply omap_app. Qed.

Lemma printed_prints (l : list string) : printed (map EvPrint l) = l.
Proof. induction l as [|x l IH]; [reflexivity|]. cbn. unfold printed in IH. rewrite IH. reflexivity. Qed.

Lemma solved_prints (l : list string) : solved (map EvPrint l) = [].
Proof. induction l as [|x l IH]; [reflexivity|]. exact IH. Qed.

Lemma written_prints (l : list string) : written (map EvPrint l) = [].
Proof. induction l as [|x l IH]; [reflexivity|]. exact IH. Qed.

(** C7.  Once the solver has answered, each example function prints, after
    the empty line of the bare [print()], the problem name, the status
    string, one line per variable of the model with its resolved value, in
    name order, and the objective value at the resolved values, in this
    order; and it prints nothing else. *)
Theorem report_output (solver : LpProblem -> SolveResult) (str : option Q -> string)
    (t : list Event) :
  printed (snd (factory_product_problem solver str t)) =
  printed t ++
  [""; "Problem Name >> Factory Products Profit";
   "Status >> " +:+ LpStatus (res_status (solver factory_lp));
   "nails_tons_per_day = " +:+ str (res_values (solver factory_lp) !! nails_tons_per_day);
   "screws_tons_per_day = " +:+ str (res_values (solver factory_lp) !! screws_tons_per_day);
   "Ton for each product per day to maximise profit = "
     +:+ str (value (res_values (solver factory_lp)) factory_objective)] /\
  printed (snd (advertising_campaign_problem solver str t)) =
  printed t ++
  [""; "Problem Name >> Advertisement Campaign";
   "Status >> " +:+ LpStatus (res_status (solver advertising_lp));
   "run_no_of_print_media = "
     +:+ str (res_values (solver advertising_lp) !! run_no_of_print_media);
   "run_no_of_tv_media = " +:+ str (res_values (solver advertising_lp) !! run_no_of_tv_media);
   "Maximum people reach by using both media = "
     +:+ str (value (res_values (solver advertising_lp)) advertising_objective)].
Proof.
  split.
  - rewrite factory_run. cbn [snd].
    rewrite !printed_app, printed_prints, factory_report. reflexivity.
  - rewrite advertising_run. cbn [snd].
    rewrite !printed_app, printed_prints, advertising_report. reflexivity.
Qed.

(** C9.  Each example function writes its model to its file and only then
    calls the solver, on the very model it wrote and built; what follows are
    prints.  This holds for every solver, hence whatever the outcome, and
    [writeLP] hands the problem back unchanged. *)
Theorem export_before_solve (solver : LpProblem -> SolveResult) (str : option Q -> string)
    (t : list Event) :
  (exists lines,
     snd (factory_product_problem solver str t) =
     t ++ EvWriteLP "MaximisedProfit.lp" factory_lp :: EvSolve factory_lp
       :: map EvPrint lines) /\
  (exists lines,
     snd (advertising_campaign_problem solver str t) =
     t ++ EvWriteLP "AdvertisementCampaign.lp" advertising_lp :: EvSolve advertising_lp
       :: map EvPrint lines) /\
  (forall p path, writeLP p path t = (inr p, t ++ [EvWriteLP path p])).
Proof.
  split; [|split].
  - eexists. rewrite factory_run. reflexivity.
  - eexists. rewrite advertising_run. reflexivity.
  - intros p path. apply writeLP_run.
Qed.

(** C10.  [main] is the factory example followed by the advertising example:
    both return normally, and over the whole run the solver is called
    exactly twice, on the factory model and then on the advertising model,
    and exactly these two models are exported. *)
Theorem main_runs_both (solver : LpProblem -> SolveResult) (str : option Q -> string)
    (t : list Event) :
  fst (factory_product_problem solver str t) = inr tt /\
  main solver str t
    = advertising_campaign_problem solver str (snd (factory_product_problem solver str t)) /\
  fst (main solver str t) = inr tt /\
  solved (snd (main solver str t)) = solved t ++ [factory_lp; advertising_lp] /\
  written (snd (main solver str t))
    = written t ++ [("MaximisedProfit.lp", factory_lp);
                    ("AdvertisementCampaign.lp", advertising_lp)].
Proof.
  assert (main solver str t
          = advertising_campaign_problem solver str
              (snd (factory_product_problem solver str t))) as Hmain.
  { unfold main. rewrite (bind_ok _ _ _ _ _ (factory_run solver str t)).
    rewrite factory_run. reflexivity. }
  split; [rewrite factory_run; reflexivity|].
  split; [exact Hmain|].
  rewrite Hmain, advertising_run, factory_run. cbn [fst snd].
  split; [reflexivity|]. split.
  - rewrite !solved_app, !solved_prints, !app_nil_r, <- app_assoc. reflexivity.
  - rewrite !written_app, !written_prints, !app_nil_r, <- app_assoc. reflexivity.
Qed.


(** *** The documented outputs *)

Lemma printed_export_solve (f : string) (p : LpProblem) (l : list string) :
  printed (EvWriteLP f p :: EvSolve p :: map EvPrint l) = l.
Proof. exact (printed_prints l). Qed.

Lemma advertising_best_values :
  advertising_best !! run_no_of_print_media = Some 40 /\
  advertising_best !! run_no_of_tv_media = Some 4.
Proof. split; vm_compute; reflexivity. Qed.

(** With a solver that answers (120, 300) the factory example prints the
    output recorded in the comments of the source. *)
Example factory_documented_output :
  printed (snd (factory_product_problem (constant_solver factory_best) str_sample [])) =
  [""; "Problem Name >> Factory Products Profit"; "Status >> Optimal";
   "nails_tons_per_day = 300.0"; "screws_tons_per_day = 120.0";
   "Ton for each product per day to maximise profit = 11400.0"].
Proof.
  rewrite factory_run. cbn [snd app]. rewrite printed_export_solve, factory_report.
  unfold constant_solver. cbn [res_status res_values].
  destruct factory_best_values as [-> ->].
  pose proof factory_best_objective as Ho. unfold objective_at in Ho.
  rewrite factory_objective_set in Ho. cbn [mbind option_bind] in Ho. rewrite Ho.
  vm_compute. reflexivity.
Qed.

(** With a solver that answers (40, 4) the advertising example prints the
    output recorded in the comments of the source. *)
Example advertising_documented_output :
  printed (snd (advertising_campaign_problem (constant_solver advertising_best)
                  str_sample [])) =
  [""; "Problem Name >> Advertisement Campaign"; "Status >> Optimal";
   "run_no_of_print_media = 40.0"; "run_no_of_tv_media = 4.0";
   "Maximum people reach by using both media = 48000000.0"].
Proof.
  rewrite advertising_run. cbn [snd app]. rewrite printed_export_solve, advertising_report.
  unfold constant_solver. cbn [res_status res_values].
  destruct advertising_best_values as [-> ->].
  pose proof advertising_best_objective as Ho. unfold objective_at in Ho.
  rewrite advertising_objective_set in Ho. cbn [mbind option_bind] in Ho. rewrite Ho.
  vm_compute. reflexivity.
Qed.

(** The data of the two models, as the solver receives them. *)
Example factory_lp_data :
  sense factory_lp = LpMaximize /\
  map_to_list (terms factory_objective)
    = [(screws_tons_per_day, 20); (nails_tons_per_day, 30)] /\
  constraints factory_lp = [mkConstraint factory_hours LE 8 "Working Hour constraint"] /\
  map_to_list (terms factory_hours)
    = [(screws_tons_per_day, truediv 1 60); (nails_tons_per_day, truediv 1 50)] /\
  variables factory_lp = [nails_tons_per_day; screws_tons_per_day].
Proof.
  split; [reflexivity|]. split; [exact factory_objective_terms|].
  split; [reflexivity|]. split; [|exact factory_variables].
  rewrite truediv_1_60, truediv_1_50. exact factory_hours_terms.
Qed.

Example advertising_lp_data :
  sense advertising_lp = LpMaximize /\
  map_to_list (terms advertising_objective)
    = [(run_no_of_tv_media, 2000000); (run_no_of_print_media, 1000000)] /\
  constraints advertising_lp
    = [mkConstraint advertising_cost LE 1000000 "Cost constraint"] /\
  map_to_list (terms advertising_cost)
    = [(run_no_of_tv_media, 50000); (run_no_of_print_media, 20000)] /\
  variables advertising_lp = [run_no_of_print_media; run_no_of_tv_media].
Proof.
  split; [reflexivity|]. split; [exact advertising_objective_terms|].
  split; [reflexivity|]. split; [exact advertising_cost_terms | exact advertising_variables].
Qed.

End LPProperties.

(* ===================================================================== *)
(** ** Further properties of the configuration loader *)
(* ===================================================================== *)

Section ConstantsMore.

Import Constants.

Lemma list_ascii_of_string_app (s1 s2 : string) :
  list_ascii_of_string (s1 +:+ s2) = (list_ascii_of_string s1 ++ list_ascii_of_string s2)%list.
Proof. induction s1 as [|c s1 IH]; simpl; [reflexivity | rewrite IH; reflexivity]. Qed.

Lemma drop_while_all (f : ascii -> bool) (l rest : list ascii) :
  forallb f l = true -> drop_while f (l ++ rest) = drop_while f rest.
Proof.
  induction l as [|c l IH]; simpl; [reflexivity|].
  intros H. apply andb_prop in H. destruct H as [Hc Hl]. rewrite Hc. auto.
Qed.

Lemma forallb_rev {A : Type} (f : A -> bool) (l : list A) :
  forallb f (rev l) = forallb f l.
Proof.
  induction l as [|x l IH]; simpl; [reflexivity|].
  rewrite forallb_app, IH. simpl. rewrite andb_true_r. apply andb_comm.
Qed.

(** The directory part of [parent/leaf]. *)
Lemma dirname_nested (parent leaf : string) :
  ends_without_sep parent = true -> no_sep leaf = true ->
  dirname (parent +:+ "/" +:+ leaf) = parent.
Proof.
  unfold ends_without_sep, no_sep, dirname. intros Hp Hl.
  rewrite !list_ascii_of_string_app. simpl. rewrite rev_app_distr. simpl.
  rewrite <- app_assoc. simpl.
  rewrite drop_while_all by (rewrite forallb_rev; exact Hl).
  simpl. destruct (rev (list_ascii_of_string parent)) as [|c r] eqn:Hr; [discriminate|].
  apply negb_true_iff in Hp. cbn [forallb drop_while]. rewrite Hp. cbn [andb].
  rewrite <- Hr, rev_involutive. apply string_of_list_ascii_of_string.
Qed.

(** The directory part of [/leaf]. *)
Lemma dirname_top (leaf : string) :
  no_sep leaf = true -> dirname ("/" +:+ leaf) = "/".
Proof.
  unfold no_sep, dirname. intros Hl. simpl. 
  rewrite drop_while_all by (rewrite forallb_rev; exact Hl).
  reflexivity.
Qed.


Lemma module_of_inj (c c' : ConfigClass) : module_of c = module_of c' -> c = c'.
Proof.
  intros H. pose proof (module_of_Config c) as Hc.
  rewrite H, module_of_Config in Hc. congruence.
Qed.

Lemma read_keys_paths (w : World) (cfg : JSON) (c : ConfigClass) :
  read_keys w cfg = inr c ->
  PATH_PARENT c = dirname (cwd w) /\ config_file c = config_path w /\ config c = cfg.
Proof.
  unfold read_keys, mbind, exc_bind, mret, exc_ret.
  repeat (match goal with
          | |- context [match subscript ?v ?k with _ => _ end] =>
              destruct (subscript v k); try discriminate
          end).
  intros H. injection H as <-. auto.
Qed.

(** What a successful import has read. *)
Lemma import_inv (w : World) (c : ConfigClass) :
  import_constants w = inr (module_of c) ->
  exists cfg, fs w !! config_path w = Some (JsonDoc cfg) /\ read_keys w cfg = inr c.
Proof.
  rewrite import_constants_unfold, class_Config_unfold.
  destruct (fs w !! config_path w) as [[raw|cfg]|]; try discriminate.
  destruct (read_keys w cfg) as [e|c0] eqn:Hr; [discriminate|].
  intros H. assert (module_of c0 = module_of c) as H' by congruence.
  apply module_of_inj in H'. subst c0. eauto.
Qed.

(** X1.  The loader looks for [config.json] in the parent of the working
    directory, not in the working directory: run in [parent/leaf] it opens
    [parent/config.json], fails with [FileNotFoundError] on that path when
    nothing is there, whatever else exists, and on success exposes
    [PATH_PARENT = parent] and [config_file = parent/config.json]. *)
Theorem config_in_parent_directory (w : World) (parent leaf : string)
    (Hparent : ends_without_sep parent = true) (Hleaf : no_sep leaf = true)
    (Hcwd : cwd w = parent +:+ "/" +:+ leaf) :
  config_path w = parent +:+ "/config.json" /\
  (fs w !! (parent +:+ "/config.json") = None ->
   import_constants w = inl (FileNotFoundError (parent +:+ "/config.json"))) /\
  (forall c, import_constants w = inr (module_of c) ->
             PATH_PARENT c = parent /\ config_file c = parent +:+ "/config.json").
Proof.
  assert (config_path w = parent +:+ "/config.json") as Hpath.
  { unfold config_path. rewrite Hcwd, dirname_nested by assumption. reflexivity. }
  split; [exact Hpath|]. split.
  - intros Hnone. rewrite import_constants_unfold, class_Config_unfold, Hpath, Hnone.
    reflexivity.
  - intros c Hc. destruct (import_inv w c Hc) as (cfg & _ & Hr).
    destruct (read_keys_paths w cfg c Hr) as (Hpp & Hcf & _).
    rewrite Hpp, Hcf, Hpath, Hcwd, dirname_nested by assumption. auto.
Qed.

Lemma config_in_parent_directory_witness :
  ends_without_sep "/srv/app" = true /\ no_sep "src" = true /\
  cwd (sample_world (JObj sample_doc)) = "/srv/app" +:+ "/" +:+ "src" /\
  config_path (sample_world (JObj sample_doc)) = "/srv/app" +:+ "/config.json".
Proof.
  split; [reflexivity|]. split; [reflexivity|]. split; [reflexivity|].
  apply (config_in_parent_directory (sample_world (JObj sample_doc)) "/srv/app" "src");
    reflexivity.
Defined.

(** X2.  Run in a directory directly under the root, [/leaf], the loader
    opens the path [//config.json], with two slashes, and exposes
    [PATH_PARENT = /]. *)
Theorem config_under_root (w : World) (leaf : string)
    (Hleaf : no_sep leaf = true) (Hcwd : cwd w = "/" +:+ leaf) :
  config_path w = "//config.json" /\
  (fs w !! "//config.json" = None ->
   import_constants w = inl (FileNotFoundError "//config.json")) /\
  (forall c, import_constants w = inr (module_of c) ->
             PATH_PARENT c = "/" /\ config_file c = "//config.json").
Proof.
  assert (config_path w = "//config.json") as Hpath.
  { unfold config_path. rewrite Hcwd, dirname_top by assumption. reflexivity. }
  split; [exact Hpath|]. split.
  - intros Hnone. rewrite import_constants_unfold, class_Config_unfold, Hpath, Hnone.
    reflexivity.
  - intros c Hc. destruct (import_inv w c Hc) as (cfg & _ & Hr).
    destruct (read_keys_paths w cfg c Hr) as (Hpp & Hcf & _).
    rewrite Hpp, Hcf, Hpath, Hcwd, dirname_top by assumption. auto.
Qed.

Lemma config_under_root_witness :
  no_sep "srv" = true /\ cwd (mkWorld "/srv" ∅) = "/" +:+ "srv" /\
  config_path (mkWorld "/srv" ∅) = "//config.json".
Proof.
  split; [reflexivity|]. split; [reflexivity|].
  apply (config_under_root (mkWorld "/srv" ∅) "srv"); reflexivity.
Defined.


Lemma import_on_document (w : World) (doc : JSON) :
  fs w !! config_path w = Some (JsonDoc doc) ->
  import_constants w = match read_keys w doc with
                       | inl e => inl e
                       | inr c => inr (module_of c)
                       end.
Proof.
  intros H. rewrite import_constants_unfold, class_Config_unfold, H. reflexivity.
Qed.

Ltac use_key H k x Hx :=
  destruct (H k) as [x Hx]; [simpl; auto 10 |].

(** X3.  When the document is an object, the keys APP_NAME, VERSION, ENV and
    PATHS are read in this order and the first one that is missing is the
    one the [KeyError] names, whatever the rest of the document looks
    like. *)
Theorem first_missing_key_reported (w : World) (m : gmap string JSON)
    (pre post : list string) (k : string)
    (Hfile : fs w !! config_path w = Some (JsonDoc (JObj m)))
    (Hsplit : top_keys = (pre ++ k :: post)%list)
    (Hpre : forall k', In k' pre -> is_Some (m !! k'))
    (Hk : m !! k = None) :
  import_constants w = inl (KeyError k).
Proof.
  rewrite (import_on_document w _ Hfile).
  unfold read_keys, subscript, mbind, exc_bind.
  unfold top_keys in Hsplit.
  destruct pre as [|k1 [|k2 [|k3 [|k4 pre]]]]; simpl in Hsplit.
  - injection Hsplit as <- _. rewrite Hk. reflexivity.
  - injection Hsplit as <- <- _. use_key Hpre "APP_NAME" x1 H1.
    rewrite H1, Hk. reflexivity.
  - injection Hsplit as <- <- <- _.
    use_key Hpre "APP_NAME" x1 H1. use_key Hpre "VERSION" x2 H2.
    rewrite H1, H2, Hk. reflexivity.
  - injection Hsplit as <- <- <- <- _.
    use_key Hpre "APP_NAME" x1 H1. use_key Hpre "VERSION" x2 H2.
    use_key Hpre "ENV" x3 H3.
    rewrite H1, H2, H3, Hk. reflexivity.
  - exfalso. injection Hsplit as _ _ _ _ Hnil. destruct pre; discriminate.
Qed.

Lemma first_missing_key_reported_witness :
  fs (sample_world (JObj (delete "VERSION" sample_doc)))
    !! config_path (sample_world (JObj (delete "VERSION" sample_doc)))
    = Some (JsonDoc (JObj (delete "VERSION" sample_doc))) /\
  top_keys = (["APP_NAME"] ++ "VERSION" :: ["ENV"; "PATHS"])%list /\
  (forall k', In k' ["APP_NAME"] -> is_Some (delete "VERSION" sample_doc !! k')) /\
  delete "VERSION" sample_doc !! "VERSION" = None /\
  import_constants (sample_world (JObj (delete "VERSION" sample_doc)))
    = inl (KeyError "VERSION").
Proof.
  assert (forall k', In k' ["APP_NAME"] -> is_Some (delete "VERSION" sample_doc !! k')) as Hpre.
  { intros k' [<-|[]]. eexists. vm_compute. reflexivity. }
  split; [vm_compute; reflexivity|]. split; [reflexivity|]. split; [exact Hpre|].
  split; [vm_compute; reflexivity|].
  apply (first_missing_key_reported _ (delete "VERSION" sample_doc)
           ["APP_NAME"] ["ENV"; "PATHS"] "VERSION");
    [vm_compute; reflexivity | reflexivity | exact Hpre | vm_compute; reflexivity].
Defined.

(** X4.  When the four top-level keys are present and PATHS is an object,
    its keys SOURCE_CODE, DATA, LOG and TEST are read in this order and the
    first one that is missing is the one the [KeyError] names. *)
Theorem first_missing_path_reported (w : World) (m pm : gmap string JSON)
    (pre post : list string) (k : string)
    (Hfile : fs w !! config_path w = Some (JsonDoc (JObj m)))
    (Htop : forall k', In k' top_keys -> is_Some (m !! k'))
    (Hpaths : m !! "PATHS" = Some (JObj pm))
    (Hsplit : path_keys = (pre ++ k :: post)%list)
    (Hpre : forall k', In k' pre -> is_Some (pm !! k'))
    (Hk : pm !! k = None) :
  import_constants w = inl (KeyError k).
Proof.
  rewrite (import_on_document w _ Hfile).
  unfold read_keys, subscript, mbind, exc_bind.
  use_key Htop "APP_NAME" x1 H1. use_key Htop "VERSION" x2 H2. use_key Htop "ENV" x3 H3.
  rewrite H1, H2, H3, Hpaths.
  unfold path_keys in Hsplit.
  destruct pre as [|k1 [|k2 [|k3 [|k4 pre]]]]; simpl in Hsplit.
  - injection Hsplit as <- _. rewrite Hk. reflexivity.
  - injection Hsplit as <- <- _. use_key Hpre "SOURCE_CODE" y1 G1.
    rewrite G1, Hk. reflexivity.
  - injection Hsplit as <- <- <- _.
    use_key Hpre "SOURCE_CODE" y1 G1. use_key Hpre "DATA" y2 G2.
    rewrite G1, G2, Hk. reflexivity.
  - injection Hsplit as <- <- <- <- _.
    use_key Hpre "SOURCE_CODE" y1 G1. use_key Hpre "DATA" y2 G2. use_key Hpre "LOG" y3 G3.
    rewrite G1, G2, G3, Hk. reflexivity.
  - exfalso. injection Hsplit as _ _ _ _ Hnil. destruct pre; discriminate.
Qed.


Lemma first_missing_path_reported_witness :
  fs (sample_world (JObj sample_doc_no_data))
    !! config_path (sample_world (JObj sample_doc_no_data))
    = Some (JsonDoc (JObj sample_doc_no_data)) /\
  (forall k', In k' top_keys -> is_Some (sample_doc_no_data !! k')) /\
  sample_doc_no_data !! "PATHS" = Some (JObj sample_paths_no_data) /\
  path_keys = (["SOURCE_CODE"] ++ "DATA" :: ["LOG"; "TEST"])%list /\
  (forall k', In k' ["SOURCE_CODE"] -> is_Some (sample_paths_no_data !! k')) /\
  sample_paths_no_data !! "DATA" = None /\
  import_constants (sample_world (JObj sample_doc_no_data)) = inl (KeyError "DATA").
Proof.
  assert (forall k', In k' top_keys -> is_Some (sample_doc_no_data !! k')) as Htop.
  { intros k' [<-|[<-|[<-|[<-|[]]]]]; eexists; vm_compute; reflexivity. }
  assert (forall k', In k' ["SOURCE_CODE"] -> is_Some (sample_paths_no_data !! k')) as Hpre.
  { intros k' [<-|[]]. eexists. vm_compute. reflexivity. }
  split; [vm_compute; reflexivity|]. split; [exact Htop|].
  split; [vm_compute; reflexivity|]. split; [reflexivity|]. split; [exact Hpre|].
  split; [vm_compute; reflexivity|].
  apply (first_missing_path_reported _ sample_doc_no_data sample_paths_no_data
           ["SOURCE_CODE"] ["LOG"; "TEST"] "DATA");
    [vm_compute; reflexivity | exact Htop | vm_compute; reflexivity | reflexivity
    | exact Hpre | vm_compute; reflexivity].
Defined.

(** X5.  A document of the wrong shape ends the import in a [TypeError], not
    in a [KeyError]: so does a document that is not an object (an array, a
    string, a number, true, false or null), and so does a document whose four
    top-level keys are present but whose PATHS is not an object. *)
Theorem wrong_shape_raises_TypeError (w : World) (doc : JSON)
    (Hfile : fs w !! config_path w = Some (JsonDoc doc))
    (Hshape : is_object doc = false \/
              (forallb (has_key doc) top_keys = true /\ is_object (paths_of doc) = false)) :
  import_constants w = inl TypeError.
Proof.
  rewrite (import_on_document w _ Hfile).
  destruct Hshape as [Hdoc | [Htop Hpaths]].
  - destruct doc; try discriminate; reflexivity.
  - rewrite forallb_forall in Htop.
    destruct (has_key_subscript doc "APP_NAME") as [x1 H1]; [apply Htop; simpl; auto|].
    destruct (has_key_subscript doc "VERSION") as [x2 H2]; [apply Htop; simpl; auto|].
    destruct (has_key_subscript doc "ENV") as [x3 H3]; [apply Htop; simpl; auto|].
    destruct (has_key_subscript doc "PATHS") as [p Hp]; [apply Htop; simpl; auto|].
    unfold paths_of in Hpaths. rewrite Hp in Hpaths.
    unfold read_keys, mbind, exc_bind. rewrite H1, H2, H3, Hp.
    destruct p; try discriminate; reflexivity.
Qed.

Lemma wrong_shape_raises_TypeError_witness :
  fs (sample_world (JArr [])) !! config_path (sample_world (JArr []))
    = Some (JsonDoc (JArr [])) /\
  (is_object (JArr []) = false \/
   (forallb (has_key (JArr [])) top_keys = true /\ is_object (paths_of (JArr [])) = false)) /\
  import_constants (sample_world (JArr [])) = inl TypeError.
Proof.
  split; [vm_compute; reflexivity|]. split; [left; reflexivity|].
  apply (wrong_shape_raises_TypeError (sample_world (JArr [])) (JArr []));
    [vm_compute; reflexivity | left; reflexivity].
Defined.

Lemma with_file_lookup (w : World) (path : string) (f : File) :
  fs (with_file w path f) !! path = Some f.
Proof. unfold with_file. simpl. apply lookup_insert_eq. Qed.

Lemma read_keys_with_file (w : World) (path : string) (f : File) (cfg : JSON) :
  read_keys (with_file w path f) cfg = read_keys w cfg.
Proof. reflexivity. Qed.

(** X6.  Keys of the document other than APP_NAME, VERSION, ENV and PATHS are
    ignored: adding or changing such a key leaves the outcome of the import
    as it was, the same exception or the same seven constants. *)
Theorem unknown_keys_ignored (w : World) (m : gmap string JSON) (k : string) (v : JSON)
    (Hfile : fs w !! config_path w = Some (JsonDoc (JObj m)))
    (Hk : ~ In k top_keys) :
  same_outcome
    (import_constants w)
    (import_constants (with_file w (config_path w) (JsonDoc (JObj (<[k := v]> m))))).
Proof.
  rewrite (import_on_document w _ Hfile).
  rewrite (import_on_document (with_file w (config_path w) _) (JObj (<[k := v]> m)))
    by apply with_file_lookup.
  rewrite read_keys_with_file.
  assert (forall k', In k' top_keys ->
            subscript (JObj (<[k := v]> m)) k' = subscript (JObj m) k') as Hsame.
  { intros k' Hin. unfold subscript. rewrite lookup_insert_ne; [reflexivity|].
    intros ->. exact (Hk Hin). }
  unfold read_keys, mbind, exc_bind, mret, exc_ret.
  rewrite !Hsame by (simpl; auto 10).
  destruct (subscript (JObj m) "APP_NAME") as [e|x1]; [reflexivity|].
  destruct (subscript (JObj m) "VERSION") as [e|x2]; [reflexivity|].
  destruct (subscript (JObj m) "ENV") as [e|x3]; [reflexivity|].
  destruct (subscript (JObj m) "PATHS") as [e|p]; [reflexivity|].
  destruct (subscript p "SOURCE_CODE") as [e|y1]; [reflexivity|].
  destruct (subscript p "DATA") as [e|y2]; [reflexivity|].
  destruct (subscript p "LOG") as [e|y3]; [reflexivity|].
  destruct (subscript p "TEST") as [e|y4]; [reflexivity|].
  simpl. eexists _, _. split; [reflexivity|]. split; [reflexivity|].
  repeat split.
Qed.

Lemma unknown_keys_ignored_witness :
  fs (sample_world (JObj sample_doc)) !! config_path (sample_world (JObj sample_doc))
    = Some (JsonDoc (JObj sample_doc)) /\
  ~ In "DEBUG" top_keys /\
  same_outcome
    (import_constants (sample_world (JObj sample_doc)))
    (import_constants
       (with_file (sample_world (JObj sample_doc))
          (config_path (sample_world (JObj sample_doc)))
          (JsonDoc (JObj (<["DEBUG" := JBool true]> sample_doc))))).
Proof.
  assert (~ In "DEBUG" top_keys) as Hk.
  { simpl. intros [H|[H|[H|[H|[]]]]]; discriminate. }
  split; [vm_compute; reflexivity|]. split; [exact Hk|].
  apply (unknown_keys_ignored (sample_world (JObj sample_doc)) sample_doc "DEBUG" (JBool true));
    [vm_compute; reflexivity | exact Hk].
Defined.

(** X7.  The import reads no file but the configuration file: putting any
    file at any other path leaves its outcome unchanged. *)
Theorem other_files_not_read (w : World) (path : string) (f : File)
    (Hpath : path <> config_path w) :
  import_constants (with_file w path f) = import_constants w.
Proof.
  rewrite !import_constants_unfold, !class_Config_unfold.
  change (config_path (with_file w path f)) with (config_path w).
  unfold with_file at 1. cbn [fs]. rewrite lookup_insert_ne by exact Hpath.
  destruct (fs w !! config_path w) as [[raw|cfg]|]; reflexivity.
Qed.

Lemma other_files_not_read_witness :
  "/srv/app/src/config.json" <> config_path (sample_world (JObj sample_doc)) /\
  import_constants
    (with_file (sample_world (JObj sample_doc)) "/srv/app/src/config.json" (NotJson "{"))
  = import_constants (sample_world (JObj sample_doc)).
Proof.
  assert ("/srv/app/src/config.json" <> config_path (sample_world (JObj sample_doc))) as H.
  { vm_compute. discriminate. }
  split; [exact H|].
  apply (other_files_not_read (sample_world (JObj sample_doc)) "/srv/app/src/config.json"
           (NotJson "{") H).
Defined.

End ConstantsMore.

(* ===================================================================== *)
(** ** Further properties of the two examples *)
(* ===================================================================== *)

Section LPMore.

Import LP.
Local Open Scope Q_scope.
Local Open Scope list_scope.

(** *** The models without integrality *)

Lemma feasible_relaxed_of_feasible (p : LpProblem) (a : gmap LpVariable Q) :
  feasible p a -> feasible_relaxed p a.
Proof.
  intros [Hdom Hcons]. split; [|exact Hcons].
  intros v Hv. destruct (Hdom v Hv) as (q & Hq & Hl & Hu & _).
  exists q. split; [exact Hq | split; assumption].
Qed.

Lemma advertising_relaxed_inv (a : gmap LpVariable Q) :
  feasible_relaxed advertising_lp a ->
  exists qx qy : Q,
    a !! run_no_of_print_media = Some qx /\ a !! run_no_of_tv_media = Some qy /\
    0 <= qx /\ qx <= 40 /\ 0 <= qy /\ qy <= 15 /\
    0 + qx * 20000 + qy * 50000 <= 1000000 /\
    objective_at advertising_lp a = Some (0 + qx * 1000000 + qy * 2000000).
Proof.
  intros [Hdom Hcons].
  destruct (Hdom run_no_of_print_media) as (qx & Hx & Hlx & Hux).
  { apply (in_var_set _ _ _ advertising_var_set). simpl. auto. }
  destruct (Hdom run_no_of_tv_media) as (qy & Hy & Hly & Huy).
  { apply (in_var_set _ _ _ advertising_var_set). simpl. auto. }
  simpl in Hlx, Hux, Hly, Huy.
  rewrite advertising_constraints in Hcons.
  apply Forall_cons_1 in Hcons. destruct Hcons as [(q & Hq & Hle) _].
  cbn [expression relation rhs holds] in Hq, Hle.
  rewrite (value_two a _ _ _ _ _ qy qx advertising_cost_terms advertising_cost_constant Hy Hx) in Hq.
  injection Hq as <-.
  exists qx, qy. repeat split; try assumption.
  unfold objective_at. rewrite advertising_objective_set.
  exact (value_two a _ _ _ _ _ qy qx advertising_objective_terms
           advertising_objective_constant Hy Hx).
Qed.

Lemma advertising_half_relaxed : feasible_relaxed advertising_lp advertising_half.
Proof.
  split.
  - intros v Hv. apply (in_var_set _ _ _ advertising_var_set) in Hv.
    destruct Hv as [<-|[<-|[]]]; exists (1 # 2);
      (split; [vm_compute; reflexivity|]); split; simpl; unfold Qle; simpl; lia.
  - rewrite advertising_constraints. constructor; [|constructor].
    eexists. cbn [expression relation rhs holds]. split.
    + apply (value_two advertising_half _ _ _ _ _ (1 # 2) (1 # 2)
               advertising_cost_terms advertising_cost_constant); vm_compute; reflexivity.
    + unfold Qle. simpl. lia.
Qed.

Lemma advertising_half_objective :
  objective_at advertising_lp advertising_half
  = Some (0 + (1 # 2) * 1000000 + (1 # 2) * 2000000).
Proof.
  unfold objective_at. rewrite advertising_objective_set.
  apply (value_two advertising_half _ _ _ _ _ (1 # 2) (1 # 2)
           advertising_objective_terms advertising_objective_constant); vm_compute; reflexivity.
Qed.

(** X9.  Integrality does not decide the advertising example: among all
    rational campaigns within the bounds and the budget, none reaches more
    than 48000000 people and only (40, 4) reaches them. *)
Theorem advertising_relaxation (a : gmap LpVariable Q) (o : Q)
    (Hfeasible : feasible_relaxed advertising_lp a)
    (Hobjective : objective_at advertising_lp a = Some o) :
  o <= 48000000 /\
  (48000000 <= o ->
   exists qx qy, a !! run_no_of_print_media = Some qx /\ a !! run_no_of_tv_media = Some qy /\
                 qx == 40 /\ qy == 4).
Proof.
  destruct (advertising_relaxed_inv a Hfeasible)
    as (qx & qy & Hx & Hy & Hx0 & Hx1 & Hy0 & Hy1 & Hh & Hobj).
  rewrite Hobj in Hobjective. injection Hobjective as <-.
  split; [lra|].
  intros Hge. exists qx, qy. repeat split; try assumption; lra.
Qed.

Lemma advertising_relaxation_witness :
  feasible_relaxed advertising_lp advertising_half /\
  objective_at advertising_lp advertising_half
    = Some (0 + (1 # 2) * 1000000 + (1 # 2) * 2000000) /\
  0 + (1 # 2) * 1000000 + (1 # 2) * 2000000 <= 48000000.
Proof.
  split; [exact advertising_half_relaxed|]. split; [exact advertising_half_objective|].
  exact (proj1 (advertising_relaxation advertising_half _ advertising_half_relaxed
                  advertising_half_objective)).
Defined.


(** *** The objective line *)

Lemma value_two_none (a : gmap LpVariable Q) (e : LpAffineExpression)
    (x y : LpVariable) (c1 c2 : Q) :
  map_to_list (terms e) = [(x, c1); (y, c2)] ->
  a !! x = None \/ a !! y = None -> value a e = None.
Proof.
  intros Ht H. unfold value. rewrite Ht. simpl.
  destruct (a !! y) as [qy|]; simpl; [|reflexivity].
  destruct H as [H|H]; [rewrite H; reflexivity | discriminate].
Qed.

Lemma last_printed (t : list Event) (l : list string) (x : string) :
  last (printed t ++ l ++ [x]) = Some x.
Proof. rewrite app_assoc. apply last_snoc. Qed.

Lemma factory_last_line (solver : LpProblem -> SolveResult) (str : option Q -> string)
    (t : list Event) :
  last (printed (snd (factory_product_problem solver str t)))
  = Some ("Ton for each product per day to maximise profit = "
          +:+ str (value (res_values (solver factory_lp)) factory_objective)).
Proof.
  rewrite factory_run. cbn [snd]. rewrite printed_app. cbn [app].
  rewrite printed_export_solve, factory_report.
  exact (last_printed t [_; _; _; _; _] _).
Qed.

Lemma advertising_last_line (solver : LpProblem -> SolveResult) (str : option Q -> string)
    (t : list Event) :
  last (printed (snd (advertising_campaign_problem solver str t)))
  = Some ("Maximum people reach by using both media = "
          +:+ str (value (res_values (solver advertising_lp)) advertising_objective)).
Proof.
  rewrite advertising_run. cbn [snd]. rewrite printed_app. cbn [app].
  rewrite printed_export_solve, advertising_report.
  exact (last_printed t [_; _; _; _; _] _).
Qed.

(** X10.  The last line of the factory report is not the solver's objective
    but [value(prob.objective)], recomputed from the values the solver gave
    to the variables, whatever its status: 20 vx + 30 vy when both variables
    have a value, and [None] as soon as one of them has none. *)
Theorem factory_objective_line (solver : LpProblem -> SolveResult)
    (str : option Q -> string) (t : list Event) :
  match res_values (solver factory_lp) !! screws_tons_per_day,
        res_values (solver factory_lp) !! nails_tons_per_day with
  | Some vx, Some vy =>
      exists vo, vo == 20 * vx + 30 * vy /\
        last (printed (snd (factory_product_problem solver str t)))
        = Some ("Ton for each product per day to maximise profit = " +:+ str (Some vo))
  | _, _ =>
      last (printed (snd (factory_product_problem solver str t)))
      = Some ("Ton for each product per day to maximise profit = " +:+ str None)
  end.
Proof.
  rewrite factory_last_line.
  destruct (res_values (solver factory_lp) !! screws_tons_per_day) as [vx|] eqn:Hx;
    [destruct (res_values (solver factory_lp) !! nails_tons_per_day) as [vy|] eqn:Hy|].
  - rewrite (value_two _ _ _ _ _ _ vx vy factory_objective_terms
               factory_objective_constant Hx Hy).
    eexists. split; [|reflexivity]. ring.
  - rewrite (value_two_none _ _ _ _ _ _ factory_objective_terms (or_intror Hy)). reflexivity.
  - rewrite (value_two_none _ _ _ _ _ _ factory_objective_terms (or_introl Hx)). reflexivity.
Qed.

(** X11.  Likewise the last line of the advertising report is recomputed
    from the values of the variables, whatever the status:
    1000000 vx + 2000000 vy when both have a value, [None] otherwise. *)
Theorem advertising_objective_line (solver : LpProblem -> SolveResult)
    (str : option Q -> string) (t : list Event) :
  match res_values (solver advertising_lp) !! run_no_of_print_media,
        res_values (solver advertising_lp) !! run_no_of_tv_media with
  | Some vx, Some vy =>
      exists vo, vo == 1000000 * vx + 2000000 * vy /\
        last (printed (snd (advertising_campaign_problem solver str t)))
        = Some ("Maximum people reach by using both media = " +:+ str (Some vo))
  | _, _ =>
      last (printed (snd (advertising_campaign_problem solver str t)))
      = Some ("Maximum people reach by using both media = " +:+ str None)
  end.
Proof.
  rewrite advertising_last_line.
  destruct (res_values (solver advertising_lp) !! run_no_of_print_media) as [vx|] eqn:Hx;
    [destruct (res_values (solver advertising_lp) !! run_no_of_tv_media) as [vy|] eqn:Hy|].
  - rewrite (value_two _ _ _ _ _ _ vy vx advertising_objective_terms
               advertising_objective_constant Hy Hx).
    eexists. split; [|reflexivity]. ring.
  - rewrite (value_two_none _ _ _ _ _ _ advertising_objective_terms (or_introl Hy)).
    reflexivity.
  - rewrite (value_two_none _ _ _ _ _ _ advertising_objective_terms (or_intror Hx)).
    reflexivity.
Qed.


(** *** The whole run *)

Lemma main_run (solver : LpProblem -> SolveResult) (str : option Q -> string)
    (t : list Event) :
  snd (main solver str t) =
  t ++ ([EvWriteLP "MaximisedProfit.lp" factory_lp; EvSolve factory_lp]
        ++ map EvPrint (report_lines str (with_result factory_lp (solver factory_lp))
                          "Ton for each product per day to maximise profit"))
    ++ ([EvWriteLP "AdvertisementCampaign.lp" advertising_lp; EvSolve advertising_lp]
        ++ map EvPrint (report_lines str (with_result advertising_lp (solver advertising_lp))
                          "Maximum people reach by using both media")).
Proof.
  unfold main. rewrite (bind_ok _ _ _ _ _ (factory_run solver str t)).
  rewrite advertising_run. cbn [snd]. rewrite <- app_assoc. reflexivity.
Qed.

Lemma printed_export_pair (f : string) (p q : LpProblem) :
  printed [EvWriteLP f p; EvSolve q] = [].
Proof. reflexivity. Qed.

(** X12.  [main] prints the factory report and then the advertising report,
    six lines each, and nothing before, between or after them. *)
Theorem main_prints_both_reports (solver : LpProblem -> SolveResult)
    (str : option Q -> string) (t : list Event) :
  printed (snd (main solver str t)) =
  printed t ++
  [""; "Problem Name >> Factory Products Profit";
   "Status >> " +:+ LpStatus (res_status (solver factory_lp));
   "nails_tons_per_day = " +:+ str (res_values (solver factory_lp) !! nails_tons_per_day);
   "screws_tons_per_day = " +:+ str (res_values (solver factory_lp) !! screws_tons_per_day);
   "Ton for each product per day to maximise profit = "
     +:+ str (value (res_values (solver factory_lp)) factory_objective);
   ""; "Problem Name >> Advertisement Campaign";
   "Status >> " +:+ LpStatus (res_status (solver advertising_lp));
   "run_no_of_print_media = "
     +:+ str (res_values (solver advertising_lp) !! run_no_of_print_media);
   "run_no_of_tv_media = " +:+ str (res_values (solver advertising_lp) !! run_no_of_tv_media);
   "Maximum people reach by using both media = "
     +:+ str (value (res_values (solver advertising_lp)) advertising_objective)].
Proof.
  rewrite main_run, !printed_app, !printed_prints, !printed_export_pair.
  rewrite factory_report, advertising_report. reflexivity.
Qed.

Lemma files_after_app (t1 t2 : list Event) :
  files_after (t1 ++ t2) =
  foldl (fun files ev =>
           match ev with
           | EvWriteLP f p => <[f := p]> files
           | _ => files
           end) (files_after t1) t2.
Proof. unfold files_after. apply foldl_app. Qed.

Lemma files_fold_prints (files : gmap string LpProblem) (l : list string) :
  foldl (fun files ev =>
           match ev with
           | EvWriteLP f p => <[f := p]> files
           | _ => files
           end) files (map EvPrint l) = files.
Proof. revert files. induction l as [|x l IH]; intros files; [reflexivity | apply IH]. Qed.

Lemma files_after_export_solve (t : list Event) (f : string) (p : LpProblem)
    (l : list string) :
  files_after (t ++ [EvWriteLP f p; EvSolve p] ++ map EvPrint l) = <[f := p]> (files_after t).
Proof. rewrite files_after_app. cbn [app foldl]. apply files_fold_prints. Qed.

Lemma files_after_main (solver : LpProblem -> SolveResult) (str : option Q -> string)
    (t : list Event) :
  files_after (snd (main solver str t)) =
  <["AdvertisementCampaign.lp" := advertising_lp]>
    (<["MaximisedProfit.lp" := factory_lp]> (files_after t)).
Proof.
  rewrite main_run, app_assoc, !files_after_export_solve. reflexivity.
Qed.

(** X13.  After [main] the two exported files hold the factory and the
    advertising model and every other file is as before; what they hold does
    not depend on the solver or on its answers, and running [main] again,
    even with another solver, rewrites them with the same content. *)
Theorem exported_files_after_main (solver solver' : LpProblem -> SolveResult)
    (str str' : option Q -> string) (t : list Event) :
  files_after (snd (main solver str t)) !! "MaximisedProfit.lp" = Some factory_lp /\
  files_after (snd (main solver str t)) !! "AdvertisementCampaign.lp" = Some advertising_lp /\
  (forall f, f <> "MaximisedProfit.lp" -> f <> "AdvertisementCampaign.lp" ->
             files_after (snd (main solver str t)) !! f = files_after t !! f) /\
  files_after (snd (main solver' str' t)) = files_after (snd (main solver str t)) /\
  files_after (snd (main solver' str' (snd (main solver str t))))
    = files_after (snd (main solver str t)).
Proof.
  rewrite !files_after_main.
  split; [|split; [|split; [|split]]].
  - rewrite lookup_insert_ne by discriminate. apply lookup_insert_eq.
  - apply lookup_insert_eq.
  - intros f H1 H2. rewrite !lookup_insert_ne by congruence. reflexivity.
  - reflexivity.
  - apply map_eq. intros f.
    destruct (decide (f = "AdvertisementCampaign.lp")) as [->|H2].
    + rewrite !lookup_insert_eq. reflexivity.
    + rewrite (lookup_insert_ne _ "AdvertisementCampaign.lp") by congruence.
      destruct (decide (f = "MaximisedProfit.lp")) as [->|H1].
      * rewrite lookup_insert_eq.
        rewrite (lookup_insert_ne _ "AdvertisementCampaign.lp") by congruence.
        rewrite lookup_insert_eq. reflexivity.
      * rewrite !lookup_insert_ne by congruence. reflexivity.
Qed.

End LPMore.
